(** * A shallow embedding of the SFCC rules engine

    The engine is three classes of the [rules_engine] cartridge:
    [ObjectDiscovery] (node classification and dotted-path lookup),
    [Evaluator] (the condition-tree interpreter) and [Validator] (the
    structural checker, in its revision that resolves rule references).
    Each class becomes a module below, with the methods under the names
    they carry in the scripts.

    Values are the JSON-shaped data the scripts traverse.  The scripts are
    untyped, so every function is modelled on every value, with the
    exceptions JavaScript raises where an operation does not apply. *)

From Stdlib Require Import String Ascii List ZArith Bool Lia DecimalString.
Import ListNotations.
Local Open Scope string_scope.
Local Open Scope list_scope.

(** ** The JavaScript fragment the scripts rely on *)

Module Js.

(** JSON-shaped values.  A number is an integer-valued double, held as the
    integer it equals (fractions, [NaN], the infinities and [-0] are outside
    the model).  An object is the list of its own properties, looked up by
    the first entry under a key.  The members every object inherits
    ([constructor], [toString], [hasOwnProperty], ...) are functions, which
    are not among these values: the model covers the keys that name no
    inherited member, and reads [undefined] where the scripts would read
    such a function. *)
#[warnings="-register-all"]
Inductive value : Type :=
| VUndefined
| VNull
| VBool (b : bool)
| VNum (z : Z)
| VStr (s : string)
| VArr (elems : list value)
| VObj (props : list (string * value)).

(** What a [throw] carries: [Error(message)] raised by the scripts
    themselves, and the two built-in errors the runtime raises. *)
Inductive exn : Type :=
| Error (message : string)
| TypeError
| SyntaxError.

(** The result of running a script function: a returned value, a thrown
    exception, or a recursion that did not finish within the budget of
    nested calls it was given. *)
Inductive outcome (A : Type) : Type :=
| Ok (a : A)
| Throw (e : exn)
| OutOfFuel.
Arguments Ok {A} a.
Arguments Throw {A} e.
Arguments OutOfFuel {A}.

Definition bind {A B : Type} (m : outcome A) (k : A -> outcome B) : outcome B :=
  match m with
  | Ok a => k a
  | Throw e => Throw e
  | OutOfFuel => OutOfFuel
  end.

(** [settles m m']: once [m] is a return or a throw, [m'] is the same; used
    to compare a call with the same call under a larger budget. *)
Definition settles {A : Type} (m m' : outcome A) : Prop :=
  m <> OutOfFuel -> m' = m.

Declare Scope js_scope.
Delimit Scope js_scope with js.
Notation "x <- m ;; k" := (bind m (fun x => k))
  (at level 61, m at next level, right associativity) : js_scope.
Local Open Scope js_scope.

(** [typeof] *)
Inductive jstype : Type := TUndefined | TObject | TBoolean | TNumber | TString.

Definition typeof (v : value) : jstype :=
  match v with
  | VUndefined => TUndefined
  | VNull | VArr _ | VObj _ => TObject
  | VBool _ => TBoolean
  | VNum _ => TNumber
  | VStr _ => TString
  end.

Definition is_string (v : value) : bool :=
  match v with VStr _ => true | _ => false end.

(** [Array.isArray(v)], also [v instanceof Array] on these values. *)
Definition isArray (v : value) : bool :=
  match v with VArr _ => true | _ => false end.

(** ToBoolean: the falsy values are [undefined], [null], [false], [0] and the empty string. *)
Definition truthy (v : value) : bool :=
  match v with
  | VUndefined | VNull => false
  | VBool b => b
  | VNum z => negb (Z.eqb z 0)
  | VStr s => negb (String.eqb s EmptyString)
  | VArr _ | VObj _ => true
  end.

(** [a === b].  Objects and arrays compare by identity, and the rule and
    the criteria are separate allocations, so two of them are never equal. *)
Definition strict_equals (a b : value) : bool :=
  match a, b with
  | VUndefined, VUndefined => true
  | VNull, VNull => true
  | VBool x, VBool y => Bool.eqb x y
  | VNum x, VNum y => Z.eqb x y
  | VStr x, VStr y => String.eqb x y
  | _, _ => false
  end.

(** A canonical array index: decimal digits that print back to themselves. *)
Definition index_of_key (k : string) : option nat :=
  match NilEmpty.uint_of_string k with
  | Some u =>
      let n := Nat.of_uint u in
      if String.eqb (NilEmpty.string_of_uint (Nat.to_uint n)) k then Some n else None
  | None => None
  end.

Definition lookup (k : string) (props : list (string * value)) : option value :=
  match find (fun p => String.eqb (fst p) k) props with
  | Some p => Some (snd p)
  | None => None
  end.

(** [v[k]] on a receiver that is neither [undefined] nor [null], for a key
    that names no inherited member: the own property, the [length] and the
    elements of an array, the [length] and the characters of a string. *)
Definition own_get (v : value) (k : string) : value :=
  match v with
  | VObj props =>
      match lookup k props with Some x => x | None => VUndefined end
  | VArr l =>
      if String.eqb k "length" then VNum (Z.of_nat (List.length l))
      else match index_of_key k with
           | Some i => nth i l VUndefined
           | None => VUndefined
           end
  | VStr s =>
      if String.eqb k "length" then VNum (Z.of_nat (String.length s))
      else match index_of_key k with
           | Some i =>
               match String.get i s with
               | Some c => VStr (String c EmptyString)
               | None => VUndefined
               end
           | None => VUndefined
           end
  | _ => VUndefined
  end.

(** [v[k]] and [v.k]: reading a property of [undefined] or [null] throws. *)
Definition getProp (v : value) (k : string) : outcome value :=
  match v with
  | VUndefined | VNull => Throw TypeError
  | _ => Ok (own_get v k)
  end.

(** [k in v]: the right operand has to be an object, else a TypeError. *)
Definition js_in (k : string) (v : value) : outcome bool :=
  match v with
  | VObj props =>
      Ok (match lookup k props with Some _ => true | None => false end)
  | VArr l =>
      Ok (String.eqb k "length"
          || match index_of_key k with
             | Some i => Nat.ltb i (List.length l)
             | None => false
             end)
  | _ => Throw TypeError
  end.

(** Number::toString(x) on an integer-valued double.  Up to [2 ^ 53]
    every integer is a double and prints as its decimal digits.  Above, the
    digits are the shortest decimal [s * 10 ^ j] that rounds to [x] (the
    closest to [x] among them), printed with [j] zeros after them up to 21
    digits and in exponent form from there. *)
Definition decimal (z : Z) : string := NilZero.string_of_int (Z.to_int z).

(** The real number [r] rounds to the double [z] (round to nearest, ties to
    the even significand), for [2 ^ 53 < z]; distances are taken four times
    over, so that half the gap to a neighbour stays an integer. *)
Definition roundsTo (z r : Z) : bool :=
  (let u := 2 ^ (Z.log2 z - 52) in
   let m := z / u in
   let up := 2 * u in
   let down := if m =? 2 ^ 52 then u else 2 * u in
   let d := 4 * (r - z) in
   if Z.even m then (- down <=? d) && (d <=? up)
   else (- down <? d) && (d <? up))%Z.

(** The largest [j], from the given one downwards, at which a multiple of
    [10 ^ j] rounds to [z], with that multiple's digits. *)
Fixpoint shortest (z : Z) (j : nat) : Z * nat :=
  let p := (10 ^ Z.of_nat j)%Z in
  let s1 := (z / p)%Z in
  let s2 := (s1 + 1)%Z in
  let below := (0 <? s1)%Z && roundsTo z (s1 * p) in
  let above := roundsTo z (s2 * p) in
  match below, above with
  | true, true =>
      let d1 := (z - s1 * p)%Z in
      let d2 := (s2 * p - z)%Z in
      if (d1 <? d2)%Z then (s1, j)
      else if (d2 <? d1)%Z then (s2, j)
      else if Z.even s1 then (s1, j) else (s2, j)
  | true, false => (s1, j)
  | false, true => (s2, j)
  | false, false =>
      match j with
      | O => (z, O)
      | S j' => shortest z j'
      end
  end.

Fixpoint zeros (j : nat) : string :=
  match j with
  | O => EmptyString
  | S j' => String "0" (zeros j')
  end.

Definition printShortest (s : Z) (j : nat) : string :=
  let ds := decimal s in
  let n := String.length ds + j in
  if Nat.leb n 21 then String.append ds (zeros j)
  else
    let exponent := String.append "e+" (decimal (Z.of_nat (n - 1))) in
    match ds with
    | EmptyString => EmptyString
    | String d EmptyString => String d exponent
    | String d rest => String d (String.append "." (String.append rest exponent))
    end.

Definition NumberToString (z : Z) : string :=
  if (Z.abs z <=? 2 ^ 53)%Z then decimal z
  else
    let (s, j) := shortest (Z.abs z) (String.length (decimal (Z.abs z))) in
    String.append (if (z <? 0)%Z then "-" else EmptyString) (printShortest s j).

(** ToString, as a template literal and a property key apply it. *)
Fixpoint ToString (v : value) : string :=
  match v with
  | VUndefined => "undefined"
  | VNull => "null"
  | VBool true => "true"
  | VBool false => "false"
  | VNum z => NumberToString z
  | VStr s => s
  | VArr l =>
      let element x :=
        match x with
        | VUndefined | VNull => EmptyString
        | _ => ToString x
        end in
      (fix join (xs : list value) : string :=
         match xs with
         | [] => EmptyString
         | [x] => element x
         | x :: rest => String.append (element x) (String.append "," (join rest))
         end) l
  | VObj _ => "[object Object]"
  end.

(** [String.prototype.includes]: [needle] occurs somewhere in [hay]. *)
Fixpoint str_includes (needle hay : string) : bool :=
  String.prefix needle hay
  || match hay with
     | EmptyString => false
     | String _ rest => str_includes needle rest
     end.

(** [recv.includes(arg)]: membership for an array, substring search for a
    string; any other receiver has no callable [includes]. *)
Definition includes (recv arg : value) : outcome bool :=
  match recv with
  | VArr l => Ok (existsb (strict_equals arg) l)
  | VStr s => Ok (str_includes (ToString arg) s)
  | _ => Throw TypeError
  end.

(** [xs.some(f)]: stops at the first element [f] accepts, or throws with it. *)
Fixpoint some (f : value -> outcome bool) (xs : list value) : outcome bool :=
  match xs with
  | [] => Ok false
  | x :: rest => b <- f x ;; if b then Ok true else some f rest
  end.

(** [s.split(sep)] for a one-character separator. *)
Fixpoint split (sep : ascii) (s : string) : list string :=
  match s with
  | EmptyString => [EmptyString]
  | String c rest =>
      match split sep rest with
      | [] => [String c EmptyString]
      | h :: t =>
          if Ascii.eqb c sep then EmptyString :: h :: t else String c h :: t
      end
  end.

(** [for (let x of v)]: the elements of an array, the characters of a
    string; nothing else among these values is iterable. *)
Definition iterate (v : value) : outcome (list value) :=
  match v with
  | VArr l => Ok l
  | VStr s => Ok (map (fun c => VStr (String c EmptyString)) (list_ascii_of_string s))
  | _ => Throw TypeError
  end.

(** [Object.keys(v).length === 0] on an object. *)
Definition no_keys (v : value) : bool :=
  match v with
  | VObj [] => true
  | _ => false
  end.

(** The relational operators of the constraint switch. *)
Inductive relop : Type := Gt | Ge | Lt | Le.

(** What the platform supplies: the regular-expression engine, the SFCC
    intrinsic [empty()] and the relational comparison with its coercions. *)
Class Host : Type := {
  regex : Type;
  (** [new RegExp(v)]: the compiled pattern, [None] when it throws. *)
  RegExp_new : value -> option regex;
  (** [r.test(s)] *)
  RegExp_test : regex -> string -> bool;
  (** [empty(v)] *)
  empty : value -> bool;
  (** [a > b], [a >= b], [a < b], [a <= b] *)
  js_compare : relop -> value -> value -> bool
}.

(** A stored [Rule] custom object: [custom.id], and what
    [JSON.parse(custom.conditions)] yields, [None] when the stored text is
    malformed and the parse throws. *)
Record StoredRule : Type := {
  custom_id : string;
  parsed_conditions : option value
}.

End Js.

Import Js.
Local Open Scope js_scope.

(** ** ObjectDiscovery.js *)

Module ObjectDiscovery.

(** The three branch names of a condition. *)
Inductive ConditionType : Type := any | all | none.

Definition branchKey (t : ConditionType) : string :=
  match t with
  | any => "any"
  | all => "all"
  | none => "none"
  end.

(** [conditionType(condition)]: the first of [any], [all], [none] that is a
    key of [condition], [null] (here [None]) when there is none. *)
Definition conditionType (condition : value) : outcome (option ConditionType) :=
  isAny <- js_in "any" condition ;;
  if isAny then Ok (Some any) else
  isAll <- js_in "all" condition ;;
  if isAll then Ok (Some all) else
  isNone <- js_in "none" condition ;;
  if isNone then Ok (Some none) else
  Ok None.

(** ['object' === typeof obj && !Array.isArray(obj) && obj !== null] *)
Definition isObject (obj : value) : bool :=
  match typeof obj with
  | TObject => negb (isArray obj) && negb (strict_equals obj VNull)
  | _ => false
  end.

(** [k in obj] on a value already known to be an object. *)
Definition has_key (k : string) (obj : value) : bool :=
  match obj with
  | VObj props => match lookup k props with Some _ => true | None => false end
  | _ => false
  end.

Definition isCondition (obj : value) : bool :=
  if negb (isObject obj) then false
  else has_key "any" obj || has_key "all" obj || has_key "none" obj.

Definition isConstraint (obj : value) : bool :=
  if negb (isObject obj) then false
  else has_key "field" obj && has_key "operator" obj && has_key "value" obj.

(** [path.split('.').reduce((prev, curr) => prev ? prev[curr] : undefined, obj)] *)
Definition resolveNestedProperty (path : string) (obj : value) : value :=
  fold_left
    (fun prev curr => if truthy prev then own_get prev curr else VUndefined)
    (split "." path) obj.

End ObjectDiscovery.

(** ** What Evaluator.js and Validator.js share *)

Module Rules.

(** [[].find.call(this._rules, (r) => r.custom.id === id)] *)
Definition findRule (rules : list StoredRule) (id : string) : option StoredRule :=
  find (fun r => String.eqb (custom_id r) id) rules.

Definition lookupMessage (id : string) : string :=
  String.append "Invalid rule reference. "
    (String.append id " does not reference any known rule.").

(** [_getById(id)], the same text in both files: throws when no stored rule
    carries the identifier, else parses the stored conditions. *)
Definition _getById (rules : list StoredRule) (id : string) : outcome value :=
  match findRule rules id with
  | None => Throw (Error (lookupMessage id))
  | Some rule =>
      match parsed_conditions rule with
      | Some conditions => Ok conditions
      | None => Throw SyntaxError
      end
  end.

(** [if (typeof node === 'string') { node = this._getById(node); }] *)
Definition resolveNode (rules : list StoredRule) (node : value) : outcome value :=
  match node with
  | VStr id => _getById rules id
  | _ => Ok node
  end.

(** [rule.conditions instanceof Array ? rule.conditions : [rule.conditions]] *)
Definition normalize (conditions : value) : list value :=
  match conditions with
  | VArr l => l
  | _ => [conditions]
  end.

End Rules.

(** ** Evaluator.js *)

Module Evaluator.
Import ObjectDiscovery Rules.

(** The operator names of the switch in [_checkConstraint]. *)
Inductive Operator : Type :=
| equals | does_not_equal
| greater_than | greater_than_or_equal | less_than | less_than_or_equal
| exists_ | does_not_exist
| in_ | not_in
| contains | not_contains
| contains_any | not_contains_any
| matches | does_not_match.

Definition operatorName (op : Operator) : string :=
  match op with
  | equals => "equals"
  | does_not_equal => "does not equal"
  | greater_than => "greater than"
  | greater_than_or_equal => "greater than or equal"
  | less_than => "less than"
  | less_than_or_equal => "less than or equal"
  | exists_ => "exists"
  | does_not_exist => "does not exist"
  | in_ => "in"
  | not_in => "not in"
  | contains => "contains"
  | not_contains => "not contains"
  | contains_any => "contains any"
  | not_contains_any => "not contains any"
  | matches => "matches"
  | does_not_match => "does not match"
  end.

Definition operators : list Operator :=
  [ equals; does_not_equal; greater_than; less_than; greater_than_or_equal;
    less_than_or_equal; exists_; does_not_exist; in_; not_in; contains;
    not_contains; contains_any; not_contains_any; matches; does_not_match ].

(** The [case] label the switch selects for [constraint.operator]: labels are
    compared with [===], so only a string equal to a label selects it. *)
Definition operatorOf (v : value) : option Operator :=
  match v with
  | VStr s => find (fun op => String.eqb (operatorName op) s) operators
  | _ => None
  end.

Section WithHost.
Context {host : Host}.
Variable rules : list StoredRule.

(** The switch of [_checkConstraint], on the resolved [criterion]. *)
Definition applyOperator (op : option Operator) (criterion v : value) : outcome bool :=
  match op with
  | Some equals => Ok (strict_equals criterion v)
  | Some does_not_equal => Ok (negb (strict_equals criterion v))
  | Some greater_than => Ok (js_compare Gt criterion v)
  | Some greater_than_or_equal => Ok (js_compare Ge criterion v)
  | Some less_than => Ok (js_compare Lt criterion v)
  | Some less_than_or_equal => Ok (js_compare Le criterion v)
  | Some exists_ => Ok (negb (empty criterion))
  | Some does_not_exist => Ok (empty criterion)
  | Some in_ =>
      if isArray v then includes v criterion else Ok false
  | Some not_in =>
      if negb (isArray v) then Ok true
      else b <- includes v criterion ;; Ok (negb b)
  | Some contains =>
      if isArray criterion then includes criterion v else Ok false
  | Some not_contains =>
      if negb (isArray criterion) then Ok true
      else b <- includes criterion v ;; Ok (negb b)
  | Some contains_any =>
      match v with
      | VArr xs => some (fun x => includes criterion x) xs
      | _ => Ok false
      end
  | Some not_contains_any =>
      match v with
      | VArr xs => b <- some (fun x => includes criterion x) xs ;; Ok (negb b)
      | _ => Ok true
      end
  | Some matches =>
      match RegExp_new criterion with
      | Some r => Ok (RegExp_test r (ToString v))
      | None => Throw SyntaxError
      end
  | Some does_not_match =>
      match RegExp_new criterion with
      | Some r => Ok (negb (RegExp_test r (ToString v)))
      | None => Throw SyntaxError
      end
  | None => Ok false
  end.

(** [constraint.field.includes('.') ? resolveNestedProperty(constraint.field,
    criteria) : criteria[constraint.field]].  A field that is not a string
    but has an [includes] is an array: with a dot among its elements the
    nested lookup calls [split] on it, which it does not have. *)
Definition resolveField (field criteria : value) : outcome value :=
  dotted <- includes field (VStr ".") ;;
  if dotted then
    match field with
    | VStr path => Ok (resolveNestedProperty path criteria)
    | _ => Throw TypeError
    end
  else getProp criteria (ToString field).

Definition _checkConstraint (constraint criteria : value) : outcome bool :=
  field <- getProp constraint "field" ;;
  criterion <- resolveField field criteria ;;
  if strict_equals VUndefined criterion then Ok false else
  operator <- getProp constraint "operator" ;;
  v <- getProp constraint "value" ;;
  applyOperator (operatorOf operator) criterion v.

(** The two methods a node of a branch is handed to, [this[fn]]. *)
Inductive NodeFn : Type := fn_evaluateCondition | fn_checkConstraint.

Definition selectFn (node : value) : option NodeFn :=
  if isCondition node then Some fn_evaluateCondition
  else if isConstraint node then Some fn_checkConstraint
  else None.

(** [let result = ['all', 'none'].includes(type)] *)
Definition seed (type : ConditionType) : bool :=
  match type with
  | any => false
  | all | none => true
  end.

(** One turn of the [switch (type)]: [||] and [&&] evaluate their right
    operand only when the left one does not decide. *)
Definition step (call : NodeFn -> value -> outcome bool) (type : ConditionType)
    (result : bool) (fn : NodeFn) (node : value) : outcome bool :=
  match type with
  | any => if result then Ok true else call fn node
  | all => if result then call fn node else Ok false
  | none => if result then b <- call fn node ;; Ok (negb b) else Ok false
  end.

(** The body of [for (let node of condition[type])] in [_evaluateCondition].
    A node that is neither a condition nor a constraint is logged and ends
    the call with [false]; the log write has no effect on the result. *)
Fixpoint evaluateNodes (call : NodeFn -> value -> outcome bool)
    (type : ConditionType) (nodes : list value) (result : bool) : outcome bool :=
  match nodes with
  | [] => Ok result
  | node :: rest =>
      node' <- resolveNode rules node ;;
      match selectFn node' with
      | None => Ok false
      | Some fn =>
          result' <- step call type result fn node' ;;
          evaluateNodes call type rest result'
      end
  end.

Fixpoint _evaluateCondition (fuel : nat) (condition criteria : value) : outcome bool :=
  match fuel with
  | O => OutOfFuel
  | S fuel' =>
      type <- conditionType condition ;;
      match type with
      | None => Ok false
      | Some t =>
          branch <- getProp condition (branchKey t) ;;
          nodes <- iterate branch ;;
          evaluateNodes
            (fun fn node =>
               match fn with
               | fn_evaluateCondition => _evaluateCondition fuel' node criteria
               | fn_checkConstraint => _checkConstraint node criteria
               end)
            t nodes (seed t)
      end
  end.

(** [this[fn](node, criteria)] with [fuel] nested calls left. *)
Definition callFn (fuel : nat) (criteria : value) (fn : NodeFn) (node : value)
    : outcome bool :=
  match fn with
  | fn_evaluateCondition => _evaluateCondition fuel node criteria
  | fn_checkConstraint => _checkConstraint node criteria
  end.

(** [typeof condition.result === 'boolean' ? condition.result : true] *)
Definition resultOf (condition : value) : outcome bool :=
  r <- getProp condition "result" ;;
  match r with
  | VBool b => Ok b
  | _ => Ok true
  end.

Fixpoint _evaluateRule (fuel : nat) (conditions : list value) (criteria : value)
    : outcome bool :=
  match conditions with
  | [] => Ok false
  | condition :: rest =>
      result <- _evaluateCondition fuel condition criteria ;;
      if result then resultOf condition
      else _evaluateRule fuel rest criteria
  end.

(** [for (let c of criteria) { result.push(this._evaluateRule(conditions, c)); }] *)
Fixpoint evaluateEach (fuel : nat) (conditions : list value) (criteria : list value)
    : outcome (list value) :=
  match criteria with
  | [] => Ok []
  | c :: rest =>
      b <- _evaluateRule fuel conditions c ;;
      bs <- evaluateEach fuel conditions rest ;;
      Ok (VBool b :: bs)
  end.

Definition evaluate (fuel : nat) (rule criteria : value) : outcome value :=
  cs <- getProp rule "conditions" ;;
  let conditions := normalize cs in
  match criteria with
  | VArr records => bs <- evaluateEach fuel conditions records ;; Ok (VArr bs)
  | _ => b <- _evaluateRule fuel conditions criteria ;; Ok (VBool b)
  end.

End WithHost.
End Evaluator.

(** ** Validator.js *)

Module Validator.
Import ObjectDiscovery Rules.

Record ValidationError : Type := {
  message : string;
  element : value
}.

Record ValidationResult : Type := {
  isValid : bool;
  error : option ValidationError
}.

(** [{isValid: true}] *)
Definition valid : ValidationResult :=
  {| isValid := true; error := None |}.

(** [{isValid: false, error: {message, element}}] *)
Definition invalid (msg : string) (el : value) : ValidationResult :=
  {| isValid := false; error := Some {| message := msg; element := el |} |}.

(** [result.isValid = result.isValid && subResult.isValid;
     result.error = result.error ? result.error : subResult.error;] *)
Definition merge (result subResult : ValidationResult) : ValidationResult :=
  {| isValid := isValid result && isValid subResult;
     error := match error result with
              | Some e => Some e
              | None => error subResult
              end |}.

(** The double-quote character of the messages. *)
Definition quoted (s : string) : string :=
  String (ascii_of_nat 34) (String.append s (String (ascii_of_nat 34) EmptyString)).

Definition msg_rule : string := "The rule must be a valid JSON object.".
Definition msg_empty : string :=
  "The conditions property must contain at least one condition.".
Definition msg_structure : string := "Invalid condition structure.".
Definition msg_several : string :=
  String.concat EmptyString
    [ "A condition cannot have more than one "; quoted "any"; ", ";
      quoted "all"; ", or "; quoted "none"; " property." ].
Definition msg_node : string := "Each node should be a condition or constraint.".
Definition msg_nested : string :=
  String.concat EmptyString
    [ "Nested conditions cannot have a property "; quoted "result"; "." ].
Definition msg_field : string :=
  String.concat EmptyString [ "Constraint "; quoted "field"; " must be of type string." ].
Definition msg_operator : string :=
  String.concat EmptyString [ "Constraint "; quoted "operator"; " has invalid type." ].
Definition msg_value : string :=
  String.concat EmptyString
    [ "Constraint "; quoted "value"; " must be an array if the ";
      quoted "operator"; " is in ["; quoted "in"; ", "; quoted "not in"; ", ";
      quoted "contains any"; ", "; quoted "not contains any"; "]" ].
Definition msg_regex : string :=
  String.concat EmptyString
    [ "Constraint "; quoted "value";
      " must be a valid regular expression if the "; quoted "operator";
      " is in ["; quoted "matches"; ", "; quoted "not matches"; "]" ].

(** [`The condition '${type}' should be iterable.`] *)
Definition msg_iterable (type : option ConditionType) : string :=
  String.append "The condition '"
    (String.append (match type with Some t => branchKey t | None => "null" end)
       "' should be iterable.").

Definition _isValidCondition (obj : value) : ValidationResult :=
  if negb (isCondition obj) then invalid msg_structure obj
  else
    let isAny := has_key "any" obj in
    let isAll := has_key "all" obj in
    let isNone := has_key "none" obj in
    if (isAny && isAll) || (isAny && isNone) || (isAll && isNone)
    then invalid msg_several obj
    else valid.

Section WithHost.
Context {host : Host}.
Variable rules : list StoredRule.

Definition isSetOperator (op : Evaluator.Operator) : bool :=
  match op with
  | Evaluator.in_ | Evaluator.not_in
  | Evaluator.contains_any | Evaluator.not_contains_any => true
  | _ => false
  end.

Definition isMatchOperator (op : Evaluator.Operator) : bool :=
  match op with
  | Evaluator.matches | Evaluator.does_not_match => true
  | _ => false
  end.

(** [_validateConstraint(constraint)], on a node [isConstraint] accepted.
    The operator table is the one of the evaluator's switch. *)
Definition _validateConstraint (constraint : value) : ValidationResult :=
  if negb (is_string (own_get constraint "field"))
  then invalid msg_field constraint
  else
    match Evaluator.operatorOf (own_get constraint "operator") with
    | None => invalid msg_operator constraint
    | Some op =>
        if isSetOperator op && negb (isArray (own_get constraint "value"))
        then invalid msg_value constraint
        else if isMatchOperator op then
          match RegExp_new (own_get constraint "value") with
          | Some _ => valid
          | None => invalid msg_regex constraint
          end
        else valid
    end.

(** The body of [for (let node of condition[type])] in [_validateCondition];
    [call] is the nested [this._validateCondition(node, depth + 1)]. *)
Fixpoint validateNodes (call : value -> outcome ValidationResult)
    (condition : value) (depth : nat) (nodes : list value)
    (result : ValidationResult) : outcome ValidationResult :=
  match nodes with
  | [] => Ok result
  | node :: rest =>
      node' <- resolveNode rules node ;;
      let isCond := isCondition node' in
      let isCons := isConstraint node' in
      result' <- (if isCond then
                    subResult <- call node' ;; Ok (merge result subResult)
                  else if isCons then
                    Ok (merge result (_validateConstraint node'))
                  else Ok result) ;;
      if negb isCons && negb isCond then Ok (invalid msg_node node')
      else if Nat.ltb 0 depth && has_key "result" condition
      then Ok (invalid msg_nested node')
      else if negb (isValid result') then Ok result'
      else validateNodes call condition depth rest result'
  end.

Fixpoint _validateCondition (fuel : nat) (condition : value) (depth : nat)
    : outcome ValidationResult :=
  match fuel with
  | O => OutOfFuel
  | S fuel' =>
      condition' <- resolveNode rules condition ;;
      let result := _isValidCondition condition' in
      if negb (isValid result) then Ok result
      else
        type <- conditionType condition' ;;
        branch <- getProp condition'
                    (match type with Some t => branchKey t | None => "null" end) ;;
        match branch with
        | VArr nodes =>
            validateNodes (fun node => _validateCondition fuel' node (S depth))
              condition' depth nodes result
        | _ => Ok (invalid (msg_iterable type) condition')
        end
  end.

(** [for (let condition of conditions)] in [validate]: no [break]. *)
Fixpoint validateAll (fuel : nat) (conditions : list value)
    (result : ValidationResult) : outcome ValidationResult :=
  match conditions with
  | [] => Ok result
  | condition :: rest =>
      subResult <- _validateCondition fuel condition 0 ;;
      validateAll fuel rest (merge result subResult)
  end.

(** The guard of [validate]: [conditions.length === 0 ||
    (isObject(conditions[0]) && !Object.keys(conditions[0]).length)] *)
Definition noConditions (conditions : list value) : bool :=
  match conditions with
  | [] => true
  | first :: _ => isObject first && no_keys first
  end.

Definition validate (fuel : nat) (rule : value) : outcome ValidationResult :=
  if negb (isObject rule) then Ok (invalid msg_rule rule)
  else
    cs <- getProp rule "conditions" ;;
    let conditions := normalize cs in
    if noConditions conditions then Ok (invalid msg_empty rule)
    else validateAll fuel conditions valid.

End WithHost.
End Validator.

(** ** A host for the closed examples

    Patterns are literal text, searched as a substring; a pattern with an
    opening parenthesis is refused as the unbalanced group it would be.
    [empty] holds of [undefined], [null], the empty string, the empty array
    and the empty object.  Numbers compare as integers. *)

Module Sample.

Definition sample_RegExp (v : value) : option string :=
  let source := ToString v in
  if str_includes "(" source then None else Some source.

Definition sample_empty (v : value) : bool :=
  match v with
  | VUndefined | VNull => true
  | VStr s => String.eqb s EmptyString
  | VArr [] => true
  | VObj [] => true
  | _ => false
  end.

Definition sample_compare (op : relop) (a b : value) : bool :=
  match a, b with
  | VNum x, VNum y =>
      match op with
      | Gt => Z.ltb y x
      | Ge => Z.leb y x
      | Lt => Z.ltb x y
      | Le => Z.leb x y
      end
  | _, _ => false
  end.

#[global] Instance sampleHost : Host := {|
  regex := string;
  RegExp_new := sample_RegExp;
  RegExp_test := fun r s => str_includes r s;
  empty := sample_empty;
  js_compare := sample_compare
|}.

(** [{field, operator, value}] *)
Definition constraint (field operator : string) (v : value) : value :=
  VObj [("field", VStr field); ("operator", VStr operator); ("value", v)].

(** [{conditions: c}] *)
Definition rule (c : value) : value := VObj [("conditions", c)].

(** The scenarios of the README and of the specification. *)
Definition pushRule : value :=
  rule (VObj [("all", VArr [constraint "pushEnabled" "equals" (VBool false)])]).

Definition signedInRule : value :=
  rule (VObj [("all", VArr [constraint "authenticated" "equals" (VBool true);
                            constraint "gender" "equals" (VNum 2)])]).

(** [{conditions: {all: [{any: [], result: true}]}}]: a nested condition
    with a [result] key and no node in its branch. *)
Definition nestedResultRule : value :=
  rule (VObj [("all", VArr [VObj [("any", VArr []); ("result", VBool true)]])]).

(** The same with one node in the nested branch. *)
Definition nestedResultRule1 : value :=
  rule (VObj [("all",
    VArr [VObj [("any", VArr [constraint "pushEnabled" "equals" (VBool false)]);
                ("result", VBool true)]])]).

(** A store with one rule, [adults]: [{all: [age >= 18]}]. *)
Definition storedRules : list StoredRule :=
  [ {| custom_id := "adults";
       parsed_conditions :=
         Some (VObj [("all",
           VArr [constraint "age" "greater than or equal" (VNum 18)])]) |} ].

(** [{none: ["adults", {banned equals true}]}] against a minor who is not
    banned. *)
Definition noneOfTwo : value :=
  VObj [("none", VArr [VStr "adults"; constraint "banned" "equals" (VBool true)])].

Definition minor : value := VObj [("age", VNum 16); ("banned", VBool false)].

(** Two top-level conditions, the second with [result: false]. *)
Definition genderOne : value :=
  VObj [("all", VArr [constraint "gender" "equals" (VNum 1)])].



(** A [does not exist] constraint on a field the criteria do not have. *)
Definition absentConstraint : value :=
  constraint "missing" "does not exist" VNull.

(** A [matches] constraint: the criteria supply the pattern [AB], the
    constraint the subject [AB-12]. *)
Definition codeConstraint : value := constraint "code" "matches" (VStr "AB-12").

Definition codeCriteria : value := VObj [("code", VStr "AB")].

(** [contains any] and [not contains any] against a number. *)
Definition tagsRule (operator : string) : value :=
  rule (VObj [("all", VArr [constraint "tags" operator (VArr [VStr "a"])])]).

Definition numberTags : value := VObj [("tags", VNum 5)].

(** References to [ghost], an identifier of no stored rule: behind a
    satisfied top-level condition, behind a constraint with an unknown
    operator, and inside a nested condition behind a satisfied constraint. *)
Definition pushDisabled : value := VObj [("pushEnabled", VBool false)].

Definition ghostBranch : value := VObj [("all", VArr [VStr "ghost"])].

Definition ghostBehindSatisfied : value :=
  rule (VArr [VObj [("all", VArr [constraint "pushEnabled" "equals" (VBool false)])];
              ghostBranch]).

Definition ghostBehindFailure : value :=
  rule (VObj [("all", VArr [constraint "pushEnabled" "equal to" (VBool false);
                            VStr "ghost"])]).

Definition ghostNested : value :=
  VObj [("all", VArr [constraint "pushEnabled" "equals" (VBool false);
                      VObj [("any", VArr [VStr "ghost"])]])].

(** [{conditions: {all: []}}] *)
Definition emptyBranchRule : value := rule (VObj [("all", VArr [])]).

(** Three top-level conditions: an unknown operator, an object without a
    branch, a well-formed condition. *)
Definition unknownOperator : value :=
  VObj [("all", VArr [constraint "pushEnabled" "equal to" (VBool false)])].

Definition noBranch : value := VObj [("some", VArr [])].

Definition threeRoots : value :=
  rule (VArr [unknownOperator; noBranch; genderOne]).

(** A nested condition with one node and no [result] key, and the rule
    around it. *)
Definition nestedPlain : value :=
  VObj [("any", VArr [constraint "pushEnabled" "equals" (VBool false)])].

Definition nestedPlainRule : value := rule (VObj [("all", VArr [nestedPlain])]).

(** [{any: [push disabled, 42]}] *)
Definition anyWithNumber : value :=
  VObj [("any", VArr [constraint "pushEnabled" "equals" (VBool false); VNum 42])].

(** [{any: [], all: []}] *)
Definition twoBranches : value := VObj [("any", VArr []); ("all", VArr [])].

(** [{any: [gender equals 1, gender equals 2, tags contains any ["a"]]}]
    against [{gender: 2, tags: 5}]: the third constraint would throw. *)
Definition lazyNodes : list value :=
  [constraint "gender" "equals" (VNum 1); constraint "gender" "equals" (VNum 2);
   constraint "tags" "contains any" (VArr [VStr "a"])].

Definition anyLazy : value := VObj [("any", VArr lazyNodes)].

Definition lazyCriteria : value := VObj [("gender", VNum 2); ("tags", VNum 5)].

(** The same [any] with the throwing constraint first. *)
Definition anyThrowsFirst : value :=
  VObj [("any", VArr [constraint "tags" "contains any" (VArr [VStr "a"]);
                      constraint "gender" "equals" (VNum 2)])].

(** [{none: [42]}] *)
Definition noneWithNumber : value := VObj [("none", VArr [VNum 42])].




(** [{conditions: "ghost"}] *)
Definition ghostRule : value := rule (VStr "ghost").

End Sample.

(** ** The vocabulary of the properties *)

Module Spec.
Import ObjectDiscovery Rules.

(** The folds a branch stands for: a conjunction seeded [true] for [all], a
    disjunction seeded [false] for [any], a conjunction of the negations
    seeded [true] for [none]. *)
Definition foldOf (type : ConditionType) (bs : list bool) : bool :=
  match type with
  | all => fold_left andb bs true
  | any => fold_left orb bs false
  | none => fold_left (fun acc b => acc && negb b) bs true
  end.

(** The running value of the loop of [_evaluateCondition] after one more node. *)
Definition accumulate (type : ConditionType) (acc b : bool) : bool :=
  match type with
  | any => acc || b
  | all => acc && b
  | none => acc && negb b
  end.

(** How many of the keys [any], [all], [none] a value carries. *)
Definition branchCount (x : value) : nat :=
  List.length (filter (fun t => has_key (branchKey t) x) [any; all; none]).

(** The sequence [rule.conditions] stands for: its elements when it is an
    array, itself as the only element when it is anything else. *)
Inductive sequenceOf : value -> list value -> Prop :=
| sequenceOf_array (conditions : list value) :
    sequenceOf (VArr conditions) conditions
| sequenceOf_single (condition : value) :
    isArray condition = false -> sequenceOf condition [condition].

(** The answer of a child that keeps the loop of a branch going: [true]
    under [all], [false] under [any] and [none].  The other answer decides
    the branch, against its seed. *)
Definition carriesOn (type : ConditionType) : bool :=
  match type with
  | all => true
  | any | none => false
  end.

(** The value of a branch whose children have the outcomes [answers], a
    child being asked only while the running value [acc] does not decide. *)
Fixpoint shortCircuit (type : ConditionType) (answers : list (outcome bool))
    (acc : bool) : outcome bool :=
  match answers with
  | [] => Ok acc
  | a :: rest =>
      acc' <- match type with
              | any => if acc then Ok true else a
              | all => if acc then a else Ok false
              | none => if acc then b <- a ;; Ok (negb b) else Ok false
              end ;;
      shortCircuit type rest acc'
  end.



Section WithHost.
Context {host : Host}.
Variable rules : list StoredRule.

(** A node of a branch evaluates to [b]: after the reference it may be is
    resolved, it is a condition or a constraint and the method it is handed
    to returns [b]. *)
Definition childEvaluates (fuel : nat) (criteria node : value) (b : bool) : Prop :=
  exists node' fn,
    resolveNode rules node = Ok node'
    /\ Evaluator.selectFn node' = Some fn
    /\ Evaluator.callFn rules fuel criteria fn node' = Ok b.

(** A node of a branch has the outcome [a]: after the reference it may be
    is resolved, it is a condition or a constraint, and [a] is what the
    method it is handed to does: a returned boolean, a throw, or a call that
    does not finish within the budget. *)
Definition childAnswers (fuel : nat) (criteria node : value) (a : outcome bool)
    : Prop :=
  exists node' fn,
    resolveNode rules node = Ok node'
    /\ Evaluator.selectFn node' = Some fn
    /\ Evaluator.callFn rules fuel criteria fn node' = a.

(** The loop of [_evaluateCondition] runs through [nodes], taking the
    running value from [acc] to [acc'], without leaving the call: every node
    resolves, is a condition or a constraint, and its turn of the switch
    returns. *)
Inductive evalRuns (fuel : nat) (criteria : value) (type : ConditionType)
    : list value -> bool -> bool -> Prop :=
| evalRuns_nil (acc : bool) : evalRuns fuel criteria type [] acc acc
| evalRuns_cons (node node' : value) (fn : Evaluator.NodeFn)
    (rest : list value) (acc acc1 acc2 : bool) :
    resolveNode rules node = Ok node' ->
    Evaluator.selectFn node' = Some fn ->
    Evaluator.step (Evaluator.callFn rules fuel criteria) type acc fn node'
    = Ok acc1 ->
    evalRuns fuel criteria type rest acc1 acc2 ->
    evalRuns fuel criteria type (node :: rest) acc acc2.

(** [_evaluateCondition] on [condition] gets to look the reference [id] up:
    it is a node of the branch and the loop runs through the nodes before
    it, or it is reached inside a nested condition that the loop calls (the
    running value is still the seed, so the switch does call it). *)
Inductive evalReaches (criteria : value) (id : string) : nat -> value -> Prop :=
| evalReaches_child (fuel : nat) (condition : value) (type : ConditionType)
    (pre post : list value) (acc : bool) :
    conditionType condition = Ok (Some type) ->
    iterate (own_get condition (branchKey type)) = Ok (pre ++ VStr id :: post) ->
    evalRuns fuel criteria type pre (Evaluator.seed type) acc ->
    evalReaches criteria id (S fuel) condition
| evalReaches_nested (fuel : nat) (condition : value) (type : ConditionType)
    (pre post : list value) (node node' : value) :
    conditionType condition = Ok (Some type) ->
    iterate (own_get condition (branchKey type)) = Ok (pre ++ node :: post) ->
    evalRuns fuel criteria type pre (Evaluator.seed type) (Evaluator.seed type) ->
    resolveNode rules node = Ok node' ->
    isCondition node' = true ->
    evalReaches criteria id fuel node' ->
    evalReaches criteria id (S fuel) condition.

(** The loop of [_validateCondition] on [condition] at [depth] runs through
    [nodes] without leaving the call: every node resolves and is accepted,
    and the test on [result] does not fire. *)
Inductive validRuns (fuel : nat) (condition : value) (depth : nat)
    : list value -> Prop :=
| validRuns_nil : validRuns fuel condition depth []
| validRuns_cons (node node' : value) (rest : list value) :
    resolveNode rules node = Ok node' ->
    (if isCondition node'
     then exists subResult,
            Validator._validateCondition rules fuel node' (S depth) = Ok subResult
            /\ Validator.isValid subResult = true
     else isConstraint node' = true
          /\ Validator.isValid (Validator._validateConstraint node') = true) ->
    (Nat.ltb 0 depth && has_key "result" condition) = false ->
    validRuns fuel condition depth rest ->
    validRuns fuel condition depth (node :: rest).

(** [_validateCondition] on [condition] gets to look the reference [id] up:
    the condition is the reference itself, or the reference is a node of its
    branch, or it is reached inside a nested condition, in each case after
    the loop ran through the nodes before. *)
Inductive validReaches (id : string) : nat -> value -> nat -> Prop :=
| validReaches_self (fuel depth : nat) :
    validReaches id (S fuel) (VStr id) depth
| validReaches_child (fuel depth : nat) (condition condition' : value)
    (type : ConditionType) (pre post : list value) :
    resolveNode rules condition = Ok condition' ->
    Validator.isValid (Validator._isValidCondition condition') = true ->
    conditionType condition' = Ok (Some type) ->
    own_get condition' (branchKey type) = VArr (pre ++ VStr id :: post) ->
    validRuns fuel condition' depth pre ->
    validReaches id (S fuel) condition depth
| validReaches_nested (fuel depth : nat) (condition condition' : value)
    (type : ConditionType) (pre post : list value) (node node' : value) :
    resolveNode rules condition = Ok condition' ->
    Validator.isValid (Validator._isValidCondition condition') = true ->
    conditionType condition' = Ok (Some type) ->
    own_get condition' (branchKey type) = VArr (pre ++ node :: post) ->
    validRuns fuel condition' depth pre ->
    resolveNode rules node = Ok node' ->
    isCondition node' = true ->
    validReaches id fuel node' (S depth) ->
    validReaches id (S fuel) condition depth.

(** [child] is a condition nested directly in the condition [parent]: a
    node of its branch, after the reference it may be is resolved. *)
Inductive nestedIn (parent child : value) : Prop :=
| nestedIn_node (type : ConditionType) (nodes : list value) (node : value) :
    conditionType parent = Ok (Some type) ->
    own_get parent (branchKey type) = VArr nodes ->
    In node nodes ->
    resolveNode rules node = Ok child ->
    isCondition child = true ->
    nestedIn parent child.

(** [child] is nested somewhere below [root], one level or more. *)
Inductive nestedBelow (root : value) : value -> Prop :=
| nestedBelow_child (child : value) :
    nestedIn root child -> nestedBelow root child
| nestedBelow_step (mid child : value) :
    nestedBelow root mid -> nestedIn mid child -> nestedBelow root child.

(** The branch of a condition has at least one node. *)
Definition hasNodes (condition : value) : Prop :=
  exists type node nodes,
    conditionType condition = Ok (Some type)
    /\ own_get condition (branchKey type) = VArr (node :: nodes).

End WithHost.

(** A string reference [id] is written somewhere in the tree of a condition:
    among the nodes of one of its branches, or inside one of those nodes. *)
Inductive refersTo (id : string) : value -> Prop :=
| refersTo_node (condition : value) (type : ConditionType) (nodes : list value) :
    own_get condition (branchKey type) = VArr nodes ->
    In (VStr id) nodes ->
    refersTo id condition
| refersTo_inside (condition node : value) (type : ConditionType)
    (nodes : list value) :
    own_get condition (branchKey type) = VArr nodes ->
    In node nodes ->
    refersTo id node ->
    refersTo id condition.

(** The same of a rule: in the tree of one of its top-level conditions. *)
Definition ruleRefersTo (id : string) (rule : value) : Prop :=
  exists condition,
    In condition (normalize (own_get rule "conditions"))
    /\ refersTo id condition.

End Spec.

(** ** util/getConditionsByRoleId.js *)

Module Util.
Import Rules.

(** [rule ? JSON.parse(rule.custom.conditions) : {}] on the rule [find]
    answers: an identifier of no stored rule gives the empty object. *)
Definition getConditionsByRoleId (rules : list StoredRule) (id : string)
    : outcome value :=
  match findRule rules id with
  | Some rule =>
      match parsed_conditions rule with
      | Some conditions => Ok conditions
      | None => Throw SyntaxError
      end
  | None => Ok (VObj [])
  end.

End Util.

(** ** RulesEngine.js

    The facade in its two behaviours: the revision that accepts a rule
    identifier and answers [false] on a rule that is not valid, and the
    revision that throws on it. *)

Module RulesEngine.
Import Rules.

(** A [Rule] custom object as the facade reads it: the part the validator
    and the evaluator read, [custom.label], and [lastModified.toString()]. *)
Record CustomObject : Type := {
  stored : StoredRule;
  custom_label : value;
  lastModified : string
}.

Definition msg_not_valid : string := "Rule is not valid".

Section WithHost.
Context {host : Host}.
Variable objects : list CustomObject.

(** What [init] hands to [new Validator(rules)] and [new Evaluator(rules)]. *)
Definition rulesOf : list StoredRule := map stored objects.

(** [_getById(id)]: a missing rule is logged, and the object literal then
    reads [rule.custom] of [undefined]. *)
Definition _getById (id : string) : outcome value :=
  match find (fun r => String.eqb (custom_id (stored r)) id) objects with
  | None => Throw TypeError
  | Some rule =>
      match parsed_conditions (stored rule) with
      | Some conditions =>
          Ok (VObj [ ("id", VStr (custom_id (stored rule)));
                     ("label", custom_label rule);
                     ("conditions", conditions);
                     ("lastModified", VStr (lastModified rule)) ])
      | None => Throw SyntaxError
      end
  end.

(** [if (typeof rule === 'string') { rule = this._getById(rule); }] *)
Definition resolveRule (rule : value) : outcome value :=
  match rule with
  | VStr id => _getById id
  | _ => Ok rule
  end.

Definition validate (fuel : nat) (rule : value)
    : outcome Validator.ValidationResult :=
  rule' <- resolveRule rule ;;
  Validator.validate rulesOf fuel rule'.

(** [evaluate(rule, criteria)]: a rule that is not valid is logged and the
    answer is [false]. *)
Definition evaluate (fuel : nat) (rule criteria : value) : outcome value :=
  rule' <- resolveRule rule ;;
  validationResult <- validate fuel rule' ;;
  if negb (Validator.isValid validationResult) then Ok (VBool false)
  else Evaluator.evaluate rulesOf fuel rule' criteria.

(** The revision without rule identifiers. *)
Definition validate_strict (fuel : nat) (rule : value)
    : outcome Validator.ValidationResult :=
  Validator.validate rulesOf fuel rule.

(** [if (!validationResult.isValid) { throw new Error('Rule is not valid'); }] *)
Definition evaluate_strict (fuel : nat) (rule criteria : value) : outcome value :=
  validationResult <- validate_strict fuel rule ;;
  if negb (Validator.isValid validationResult) then Throw (Error msg_not_valid)
  else Evaluator.evaluate rulesOf fuel rule criteria.

End WithHost.
End RulesEngine.

(** ** More vocabulary *)

Module Shape.
Import ObjectDiscovery Rules.

(** The operator names [_validateConstraint] lists, in its order. *)
Definition validatorOperators : list string :=
  [ "equals"; "does not equal"; "greater than"; "less than";
    "greater than or equal"; "less than or equal"; "exists"; "does not exist";
    "in"; "not in"; "contains"; "not contains"; "contains any";
    "not contains any"; "matches"; "does not match" ].

(** The operator that reads as the negation of another. *)
Definition negation (op : Evaluator.Operator) : option Evaluator.Operator :=
  match op with
  | Evaluator.equals => Some Evaluator.does_not_equal
  | Evaluator.exists_ => Some Evaluator.does_not_exist
  | Evaluator.in_ => Some Evaluator.not_in
  | Evaluator.contains => Some Evaluator.not_contains
  | Evaluator.contains_any => Some Evaluator.not_contains_any
  | Evaluator.matches => Some Evaluator.does_not_match
  | _ => None
  end.

(** An outcome that is a return, a TypeError or a SyntaxError: neither an
    [Error] of the scripts nor a recursion left unfinished. *)
Definition tame {A : Type} (m : outcome A) : Prop :=
  match m with
  | Ok _ => True
  | Throw TypeError => True
  | Throw SyntaxError => True
  | Throw (Error _) => False
  | OutOfFuel => False
  end.

(** A result says it is valid exactly when it carries no error. *)
Definition coherent (r : Validator.ValidationResult) : Prop :=
  Validator.isValid r = true <-> Validator.error r = None.

(** How deep arrays and objects nest in a value. *)
Fixpoint height (v : value) : nat :=
  match v with
  | VArr l => S (list_max (map height l))
  | VObj props => S (list_max (map (fun p => height (snd p)) props))
  | _ => 0
  end.

Definition isBranchKey (k : string) : bool :=
  String.eqb k "any" || String.eqb k "all" || String.eqb k "none".

(** No rule reference in the tree of a condition: what stands under a key
    [any], [all] or [none] is not a string, and when it is an array none of
    its elements is a string or holds a reference in turn. *)
Fixpoint noReference (v : value) : bool :=
  match v with
  | VObj props =>
      forallb
        (fun p =>
           match p with
           | (k, x) =>
               if isBranchKey k then
                 match x with
                 | VStr _ => false
                 | VArr nodes =>
                     forallb (fun n => negb (is_string n) && noReference n) nodes
                 | _ => true
                 end
               else true
           end)
        props
  | _ => true
  end.

(** The same of a rule: its top-level conditions are no strings and hold no
    reference. *)
Definition ruleWithoutReference (rule : value) : bool :=
  forallb (fun c => negb (is_string c) && noReference c)
    (normalize (own_get rule "conditions")).

(** The two lists share an element, compared with [===]. *)
Definition intersects (xs ys : list value) : bool :=
  existsb (fun x => existsb (strict_equals x) ys) xs.

End Shape.

(** ** More inputs for the closed instances *)

Module Cases.
Import Sample.

(** [{role in ["admin"]}] and its negation, against a guest. *)
Definition roleIn : value := constraint "role" "in" (VArr [VStr "admin"]).
Definition roleNotIn : value := constraint "role" "not in" (VArr [VStr "admin"]).
Definition guest : value := VObj [("role", VStr "guest")].

(** [{tags contains any ["a", "b"]}] against [{tags: ["x", "b"]}]. *)
Definition tagsAny : value :=
  constraint "tags" "contains any" (VArr [VStr "a"; VStr "b"]).
Definition taggedB : value := VObj [("tags", VArr [VStr "x"; VStr "b"])].

(** A constraint on a dotted field. *)
Definition customerAge : value := constraint "customer.age" "equals" (VNum 1).

(** A stored rule [loop] whose first node is a reference to itself. *)
Definition loopCondition : value := VObj [("all", VArr [VStr "loop"])].
Definition loopRules : list StoredRule :=
  [ {| custom_id := "loop"; parsed_conditions := Some loopCondition |} ].

(** The same two nodes under [any] and under [none]. *)
Definition pairNodes : list value :=
  [ constraint "gender" "equals" (VNum 1); constraint "gender" "equals" (VNum 2) ].
Definition anyPair : value := VObj [("any", VArr pairNodes)].
Definition nonePair : value := VObj [("none", VArr pairNodes)].
Definition genderIsTwo : value := VObj [("gender", VNum 2)].

(** [{all: []}] *)
Definition emptyAll : value := VObj [("all", VArr [])].

(** The custom objects of the facade: the stored rule [adults]. *)
Definition adultsObjects : list RulesEngine.CustomObject :=
  map (fun s => {| RulesEngine.stored := s;
                   RulesEngine.custom_label := VStr "Adults";
                   RulesEngine.lastModified := "Mon Jan 01 2024" |})
    storedRules.

End Cases.

(** * Properties *)

Module EvaluatorFacts.
Import ObjectDiscovery Rules Evaluator Spec.

Section WithHost.
Context {host : Host}.
Variable rules : list StoredRule.

Lemma _evaluateCondition_unfold (fuel : nat) (condition criteria : value) :
  _evaluateCondition rules (S fuel) condition criteria
  = (type <- conditionType condition ;;
     match type with
     | None => Ok false
     | Some t =>
         branch <- getProp condition (branchKey t) ;;
         nodes <- iterate branch ;;
         evaluateNodes rules (callFn rules fuel criteria) t nodes (seed t)
     end).
Proof. reflexivity. Qed.

(** A value with a branch is an object, so reading the branch never throws. *)
Lemma conditionType_getProp (condition : value) (t : ConditionType) (k : string) :
  conditionType condition = Ok (Some t) ->
  getProp condition k = Ok (own_get condition k).
Proof.
  destruct condition; simpl; try discriminate; reflexivity.
Qed.

Lemma step_accumulate (call : NodeFn -> value -> outcome bool)
    (type : ConditionType) (acc b : bool) (fn : NodeFn) (node : value) :
  call fn node = Ok b ->
  step call type acc fn node = Ok (accumulate type acc b).
Proof.
  intros Hcall. unfold step.
  destruct type, acc; rewrite ?Hcall; simpl; try reflexivity;
    destruct b; reflexivity.
Qed.

Lemma evaluateNodes_accumulate (fuel : nat) (criteria : value)
    (type : ConditionType) (nodes : list value) (bs : list bool) :
  Forall2 (childEvaluates rules fuel criteria) nodes bs ->
  forall acc,
    evaluateNodes rules (callFn rules fuel criteria) type nodes acc
    = Ok (fold_left (accumulate type) bs acc).
Proof.
  induction 1 as [|node b nodes bs Hnode _ IH]; intros acc.
  - reflexivity.
  - destruct Hnode as (node' & fn & Hres & Hsel & Hcall).
    simpl. rewrite Hres. simpl. rewrite Hsel.
    rewrite (step_accumulate _ type acc b fn node' Hcall). simpl.
    apply IH.
Qed.

Lemma foldOf_accumulate (type : ConditionType) (bs : list bool) :
  fold_left (accumulate type) bs (seed type) = foldOf type bs.
Proof. destruct type; reflexivity. Qed.

Lemma evaluateNodes_shortCircuit (fuel : nat) (criteria : value)
    (type : ConditionType) (nodes : list value) (answers : list (outcome bool)) :
  Forall2 (childAnswers rules fuel criteria) nodes answers ->
  forall acc,
    evaluateNodes rules (callFn rules fuel criteria) type nodes acc
    = shortCircuit type answers acc.
Proof.
  induction 1 as [|node a nodes answers Hnode _ IH]; intros acc.
  - reflexivity.
  - destruct Hnode as (node' & fn & Hres & Hsel & Hcall).
    simpl. rewrite Hres. simpl. rewrite Hsel. unfold step. rewrite Hcall.
    destruct type, acc; simpl; try apply IH;
      destruct a as [b| |]; simpl; try reflexivity; apply IH.
Qed.

(** Once the running value has left the seed, no child changes it. *)
Lemma shortCircuit_decided (type : ConditionType) (answers : list (outcome bool)) :
  shortCircuit type answers (negb (seed type)) = Ok (negb (seed type)).
Proof.
  destruct type; induction answers as [|a rest IH]; simpl; auto.
Qed.

Lemma shortCircuit_cons (type : ConditionType) (a : outcome bool)
    (rest : list (outcome bool)) :
  shortCircuit type (a :: rest) (seed type)
  = match a with
    | Ok b =>
        if Bool.eqb b (carriesOn type) then shortCircuit type rest (seed type)
        else Ok (negb (seed type))
    | Throw e => Throw e
    | OutOfFuel => OutOfFuel
    end.
Proof.
  destruct type, a as [[]| |]; simpl; try reflexivity.
  - exact (shortCircuit_decided any rest).
  - exact (shortCircuit_decided all rest).
  - exact (shortCircuit_decided none rest).
Qed.

Lemma seed_not_decided (type : ConditionType) :
  @Ok bool (negb (seed type)) <> Ok (seed type).
Proof. destruct type; discriminate. Qed.

(** The branch ends on its seed iff every child carries the loop on. *)
Lemma shortCircuit_seed (type : ConditionType) (answers : list (outcome bool)) :
  shortCircuit type answers (seed type) = Ok (seed type)
  <-> Forall (fun a => a = Ok (carriesOn type)) answers.
Proof.
  induction answers as [|a rest IH].
  - split; [constructor | reflexivity].
  - rewrite shortCircuit_cons. split.
    + intros H. destruct a as [b| |]; try discriminate.
      destruct (Bool.eqb b (carriesOn type)) eqn:Hb.
      * apply Bool.eqb_prop in Hb. subst b.
        constructor; [reflexivity | now apply IH].
      * now apply seed_not_decided in H.
    + intros H. inversion H as [|? ? Ha Hrest]; subst.
      rewrite Bool.eqb_reflx. now apply IH.
Qed.

(** The branch ends against its seed iff some child decides it and every
    child before carries the loop on. *)
Lemma shortCircuit_against (type : ConditionType) (answers : list (outcome bool)) :
  shortCircuit type answers (seed type) = Ok (negb (seed type))
  <-> exists pre post,
        answers = pre ++ Ok (negb (carriesOn type)) :: post
        /\ Forall (fun a => a = Ok (carriesOn type)) pre.
Proof.
  induction answers as [|a rest IH].
  - split.
    + intros H. simpl in H. symmetry in H. now apply seed_not_decided in H.
    + intros (pre & post & H & _). now destruct pre.
  - rewrite shortCircuit_cons. split.
    + intros H. destruct a as [b| |]; try discriminate.
      destruct (Bool.eqb b (carriesOn type)) eqn:Hb.
      * apply Bool.eqb_prop in Hb. subst b.
        apply IH in H. destruct H as (pre & post & -> & Hpre).
        exists (Ok (carriesOn type) :: pre), post.
        split; [reflexivity | constructor; [reflexivity | exact Hpre]].
      * exists [], rest. split; [|constructor].
        simpl. do 2 f_equal.
        destruct b, (carriesOn type); try reflexivity; discriminate.
    + intros (pre & post & Heq & Hpre).
      destruct pre as [|p pre]; simpl in Heq; inversion Heq; subst.
      * destruct (carriesOn type); reflexivity.
      * inversion Hpre as [|? ? Hp Hpre']; subst.
        rewrite Bool.eqb_reflx. apply IH. now exists pre, post.
Qed.

Lemma shortCircuit_fold (type : ConditionType) (bs : list bool) (acc : bool) :
  shortCircuit type (map Ok bs) acc = Ok (fold_left (accumulate type) bs acc).
Proof.
  revert acc. induction bs as [|b bs IH]; intros acc; [reflexivity|].
  cbn [map shortCircuit fold_left].
  destruct type, acc; cbn [bind accumulate andb orb negb]; apply IH.
Qed.

(** C1.  For a condition whose branch is an array of nodes that each, after
    the reference it may be is resolved, are a condition or a constraint,
    evaluation is the fold of the branch with the children asked in order
    and only while the running value does not decide.  An [all] condition
    is satisfied iff every child returns [true], and not satisfied iff some
    child returns [false] after children that return [true]; an [any]
    condition is satisfied iff some child returns [true] after children
    that return [false], and not satisfied iff every child returns [false];
    a [none] condition is satisfied iff every child returns [false], and
    not satisfied iff some child returns [true] after children that return
    [false].  When every child returns a boolean, the answer is the fold
    over those booleans: the conjunction seeded [true] for [all], the
    disjunction seeded [false] for [any], the conjunction of the negations
    seeded [true] for [none]. *)
Theorem evaluateCondition_lazy_fold (fuel : nat) (condition criteria : value)
    (type : ConditionType) (nodes : list value) (answers : list (outcome bool)) :
  conditionType condition = Ok (Some type) ->
  own_get condition (branchKey type) = VArr nodes ->
  Forall2 (childAnswers rules fuel criteria) nodes answers ->
  (_evaluateCondition rules (S fuel) condition criteria = Ok true <->
   match type with
   | all => Forall (fun a => a = Ok true) answers
   | any =>
       exists pre post,
         answers = pre ++ Ok true :: post
         /\ Forall (fun a => a = Ok false) pre
   | none => Forall (fun a => a = Ok false) answers
   end)
  /\ (_evaluateCondition rules (S fuel) condition criteria = Ok false <->
      match type with
      | all =>
          exists pre post,
            answers = pre ++ Ok false :: post
            /\ Forall (fun a => a = Ok true) pre
      | any => Forall (fun a => a = Ok false) answers
      | none =>
          exists pre post,
            answers = pre ++ Ok true :: post
            /\ Forall (fun a => a = Ok false) pre
      end)
  /\ (forall bs,
         answers = map Ok bs ->
         _evaluateCondition rules (S fuel) condition criteria
         = Ok (foldOf type bs)).
Proof.
  intros Htype Hbranch Hnodes.
  assert (Hrun : _evaluateCondition rules (S fuel) condition criteria
                 = shortCircuit type answers (seed type)).
  { rewrite _evaluateCondition_unfold, Htype. simpl.
    rewrite (conditionType_getProp _ _ _ Htype). simpl.
    rewrite Hbranch. simpl.
    apply (evaluateNodes_shortCircuit _ _ _ _ _ Hnodes). }
  rewrite Hrun. split; [|split].
  - destruct type.
    + exact (shortCircuit_against any answers).
    + exact (shortCircuit_seed all answers).
    + exact (shortCircuit_seed none answers).
  - destruct type.
    + exact (shortCircuit_seed any answers).
    + exact (shortCircuit_against all answers).
    + exact (shortCircuit_against none answers).
  - intros bs ->. rewrite shortCircuit_fold. now rewrite foldOf_accumulate.
Qed.

(** An array carries none of the three keys. *)
Lemma conditionType_array (elems : list value) :
  conditionType (VArr elems) = Ok None.
Proof. reflexivity. Qed.



Lemma _evaluateRule_skip (fuel : nat) (criteria : value) (pre rest : list value) :
  Forall (fun c => _evaluateCondition rules fuel c criteria = Ok false) pre ->
  _evaluateRule rules fuel (pre ++ rest) criteria
  = _evaluateRule rules fuel rest criteria.
Proof.
  induction 1 as [|c pre Hc _ IH]; simpl; [reflexivity|].
  rewrite Hc. simpl. exact IH.
Qed.

(** The conditional of [evaluate] yields the sequence [rule.conditions]
    stands for. *)
Lemma normalize_sequenceOf (cs : value) (conditions : list value) :
  sequenceOf cs conditions -> normalize cs = conditions.
Proof.
  intros [l | c Hc]; [reflexivity|].
  destruct c; try reflexivity. discriminate.
Qed.


End WithHost.

Section Constraints.
Context {host : Host}.

Lemma _checkConstraint_unfold (constraint criteria field criterion : value) :
  getProp constraint "field" = Ok field ->
  resolveField field criteria = Ok criterion ->
  _checkConstraint constraint criteria
  = if strict_equals VUndefined criterion then Ok false
    else applyOperator (operatorOf (own_get constraint "operator")) criterion
           (own_get constraint "value").
Proof.
  intros Hfield Hres. unfold _checkConstraint.
  assert (Hget : forall k, getProp constraint k = Ok (own_get constraint k))
    by (destruct constraint; try discriminate; reflexivity).
  rewrite Hfield. cbn [bind]. rewrite Hres. cbn [bind].
  rewrite !Hget. reflexivity.
Qed.

Lemma defined_not_undefined (criterion : value) :
  criterion <> VUndefined -> strict_equals VUndefined criterion = false.
Proof. destruct criterion; intros H; try reflexivity. now elim H. Qed.

(** C3.  A constraint whose field resolves to [undefined] is not satisfied,
    whatever its operator: the test on the resolved value comes before the
    switch, so [exists] and [does not exist] never run their own check. *)
Theorem checkConstraint_absent_field (constraint criteria field : value) :
  getProp constraint "field" = Ok field ->
  resolveField field criteria = Ok VUndefined ->
  _checkConstraint constraint criteria = Ok false.
Proof.
  intros Hfield Hres.
  rewrite (_checkConstraint_unfold _ _ _ _ Hfield Hres). reflexivity.
Qed.



(** [contains] and [not contains] test [Array.isArray(criterion)] before
    they call [criterion.includes]. *)
Lemma contains_guarded (constraint criteria field criterion : value) :
  getProp constraint "field" = Ok field ->
  resolveField field criteria = Ok criterion ->
  criterion <> VUndefined ->
  isArray criterion = false ->
  (own_get constraint "operator" = VStr "contains" ->
   _checkConstraint constraint criteria = Ok false)
  /\ (own_get constraint "operator" = VStr "not contains" ->
      _checkConstraint constraint criteria = Ok true).
Proof.
  intros Hfield Hres Hdef Harr.
  rewrite (_checkConstraint_unfold _ _ _ _ Hfield Hres).
  rewrite (defined_not_undefined _ Hdef).
  split; intros ->; simpl; rewrite Harr; reflexivity.
Qed.

(** A value that is neither an array nor a string has no [includes]. *)
Lemma includes_throws (criterion x : value) :
  isArray criterion = false ->
  is_string criterion = false ->
  includes criterion x = Throw TypeError.
Proof. destruct criterion; intros; try discriminate; reflexivity. Qed.

(** [contains any] and [not contains any] call [criterion.includes] on the
    first element of the value without a test on the criterion. *)
Lemma contains_any_unguarded (constraint criteria field criterion x : value)
    (xs : list value) :
  getProp constraint "field" = Ok field ->
  resolveField field criteria = Ok criterion ->
  criterion <> VUndefined ->
  isArray criterion = false ->
  is_string criterion = false ->
  own_get constraint "value" = VArr (x :: xs) ->
  (own_get constraint "operator" = VStr "contains any" ->
   _checkConstraint constraint criteria = Throw TypeError)
  /\ (own_get constraint "operator" = VStr "not contains any" ->
      _checkConstraint constraint criteria = Throw TypeError).
Proof.
  intros Hfield Hres Hdef Harr Hstr Hval.
  rewrite (_checkConstraint_unfold _ _ _ _ Hfield Hres).
  rewrite (defined_not_undefined _ Hdef), Hval.
  split; intros ->; simpl; rewrite (includes_throws _ _ Harr Hstr); reflexivity.
Qed.

End Constraints.
End EvaluatorFacts.

Module ReferenceFacts.
Import ObjectDiscovery Rules Evaluator Validator Spec.

Section WithHost.
Context {host : Host}.
Variable rules : list StoredRule.

(** [_getById] on an identifier no stored rule carries. *)
Lemma _getById_unknown (id : string) :
  findRule rules id = None ->
  _getById rules id = Throw (Error (lookupMessage id)).
Proof. intros H. unfold _getById. now rewrite H. Qed.

Lemma evaluateNodes_runs (fuel : nat) (criteria : value) (type : ConditionType)
    (pre : list value) (acc acc' : bool) :
  evalRuns rules fuel criteria type pre acc acc' ->
  forall rest,
    evaluateNodes rules (callFn rules fuel criteria) type (pre ++ rest) acc
    = evaluateNodes rules (callFn rules fuel criteria) type rest acc'.
Proof.
  induction 1 as [|node node' fn pre acc acc1 acc2 Hres Hsel Hstep _ IH];
    intros rest; simpl; [reflexivity|].
  rewrite Hres. simpl. rewrite Hsel, Hstep. simpl. apply IH.
Qed.

(** When the running value is still the seed, the switch calls the method. *)
Lemma step_seed (call : NodeFn -> value -> outcome bool) (type : ConditionType)
    (fn : NodeFn) (node : value) (e : exn) :
  call fn node = Throw e ->
  step call type (seed type) fn node = Throw e.
Proof. intros H. destruct type; simpl; rewrite H; reflexivity. Qed.

Lemma evaluateCondition_reaches (criteria : value) (id : string) (fuel : nat)
    (condition : value) :
  findRule rules id = None ->
  evalReaches rules criteria id fuel condition ->
  _evaluateCondition rules fuel condition criteria
  = Throw (Error (lookupMessage id)).
Proof.
  intros Hid.
  induction 1 as [fuel condition type pre post acc Htype Hiter Hruns
                 |fuel condition type pre post node node' Htype Hiter Hruns
                    Hres Hcond _ IH];
    rewrite EvaluatorFacts._evaluateCondition_unfold, Htype; simpl;
    rewrite (EvaluatorFacts.conditionType_getProp _ _ _ Htype); simpl;
    rewrite Hiter; simpl;
    rewrite (evaluateNodes_runs _ _ _ _ _ _ Hruns); simpl.
  - now rewrite (_getById_unknown _ Hid).
  - rewrite Hres. simpl. unfold selectFn. rewrite Hcond.
    rewrite (step_seed _ _ _ _ (Error (lookupMessage id))); [reflexivity|].
    exact IH.
Qed.

Lemma merge_valid (result subResult : ValidationResult) :
  isValid result = true -> isValid subResult = true ->
  isValid (merge result subResult) = true.
Proof. intros H1 H2. unfold merge. simpl. now rewrite H1, H2. Qed.

Lemma validateNodes_runs (fuel : nat) (condition : value) (depth : nat)
    (pre : list value) :
  validRuns rules fuel condition depth pre ->
  forall rest result,
    isValid result = true ->
    exists result',
      isValid result' = true
      /\ validateNodes rules
           (fun node => _validateCondition rules fuel node (S depth))
           condition depth (pre ++ rest) result
         = validateNodes rules
             (fun node => _validateCondition rules fuel node (S depth))
             condition depth rest result'.
Proof.
  induction 1 as [|node node' pre Hres Hnode Hkey _ IH]; intros rest result Hok.
  - exists result. split; [exact Hok | reflexivity].
  - cbn [app validateNodes]. rewrite Hres. cbn [bind]. rewrite Hkey.
    destruct (isCondition node') eqn:Hcond.
    + destruct Hnode as (subResult & Hsub & Hvalid).
      rewrite Hsub. cbn [bind]. rewrite andb_false_r.
      rewrite (merge_valid _ _ Hok Hvalid). cbn [negb].
      apply IH. now apply merge_valid.
    + destruct Hnode as (Hcons & Hvalid).
      rewrite Hcons. cbn [bind negb andb].
      rewrite (merge_valid _ _ Hok Hvalid). cbn [negb].
      apply IH. now apply merge_valid.
Qed.

Lemma _validateCondition_unfold (fuel : nat) (condition condition' : value)
    (type : ConditionType) (depth : nat) :
  resolveNode rules condition = Ok condition' ->
  isValid (_isValidCondition condition') = true ->
  conditionType condition' = Ok (Some type) ->
  _validateCondition rules (S fuel) condition depth
  = match own_get condition' (branchKey type) with
    | VArr nodes =>
        validateNodes rules
          (fun node => _validateCondition rules fuel node (S depth))
          condition' depth nodes (_isValidCondition condition')
    | _ => Ok (invalid (msg_iterable (Some type)) condition')
    end.
Proof.
  intros Hres Hvalid Htype. simpl.
  rewrite Hres. simpl. rewrite Hvalid, Htype. simpl.
  rewrite (EvaluatorFacts.conditionType_getProp _ _ _ Htype). reflexivity.
Qed.

Lemma validateCondition_reaches (id : string) (fuel : nat) (condition : value)
    (depth : nat) :
  findRule rules id = None ->
  validReaches rules id fuel condition depth ->
  _validateCondition rules fuel condition depth
  = Throw (Error (lookupMessage id)).
Proof.
  intros Hid.
  induction 1 as [fuel depth
                 |fuel depth condition condition' type pre post
                    Hres Hvalid Htype Hbranch Hruns
                 |fuel depth condition condition' type pre post node node'
                    Hres Hvalid Htype Hbranch Hruns Hnode Hcond _ IH].
  - simpl. now rewrite (_getById_unknown _ Hid).
  - rewrite (_validateCondition_unfold _ _ _ _ _ Hres Hvalid Htype), Hbranch.
    destruct (validateNodes_runs _ _ _ _ Hruns (VStr id :: post) _ Hvalid)
      as (result' & _ & ->).
    simpl. now rewrite (_getById_unknown _ Hid).
  - rewrite (_validateCondition_unfold _ _ _ _ _ Hres Hvalid Htype), Hbranch.
    destruct (validateNodes_runs _ _ _ _ Hruns (node :: post) _ Hvalid)
      as (result' & _ & ->).
    simpl. rewrite Hnode. simpl. rewrite Hcond, IH. reflexivity.
Qed.

End WithHost.
End ReferenceFacts.

Module ValidatorFacts.
Import ObjectDiscovery Rules Validator Spec.




(** A value [_isValidCondition] accepts carries exactly one of the three
    keys, the one [conditionType] answers. *)
Lemma _isValidCondition_true (obj : value) :
  isValid (_isValidCondition obj) = true ->
  isCondition obj = true
  /\ branchCount obj = 1
  /\ exists type, conditionType obj = Ok (Some type).
Proof.
  unfold _isValidCondition.
  destruct (isCondition obj) eqn:Hcond; [|discriminate].
  destruct obj; try discriminate.
  revert Hcond.
  unfold isCondition, branchCount, conditionType, has_key, js_in. simpl.
  destruct (lookup "any" props), (lookup "all" props), (lookup "none" props);
    simpl; intros Hcond Hvalid; try discriminate;
    (split; [reflexivity | split; [reflexivity | eexists; reflexivity]]).
Qed.

Section WithHost.
Context {host : Host}.
Variable rules : list StoredRule.


Lemma validateAll_throw (fuel : nat) (pre post : list value) (c : value)
    (results : list ValidationResult) (e : exn) :
  Forall2 (fun c r => _validateCondition rules fuel c 0 = Ok r) pre results ->
  _validateCondition rules fuel c 0 = Throw e ->
  forall acc, validateAll rules fuel (pre ++ c :: post) acc = Throw e.
Proof.
  intros Hpre Hc.
  induction Hpre as [|p r pre rs Hp _ IH]; intros acc; simpl.
  - now rewrite Hc.
  - rewrite Hp. simpl. apply IH.
Qed.


Lemma validateAll_acc_valid (fuel : nat) (conditions : list value) :
  forall acc r,
    validateAll rules fuel conditions acc = Ok r ->
    isValid r = true ->
    isValid acc = true.
Proof.
  induction conditions as [|c cs IH]; intros acc r Hrun Hvalid; simpl in Hrun.
  - now injection Hrun as <-.
  - destruct (_validateCondition rules fuel c 0) as [sub| |]; try discriminate.
    simpl in Hrun. specialize (IH _ _ Hrun Hvalid).
    simpl in IH. now apply andb_true_iff in IH as [? _].
Qed.

Lemma validateAll_valid (fuel : nat) (conditions : list value) :
  forall acc r,
    validateAll rules fuel conditions acc = Ok r ->
    isValid r = true ->
    Forall (fun c => exists subResult,
                _validateCondition rules fuel c 0 = Ok subResult
                /\ isValid subResult = true) conditions.
Proof.
  induction conditions as [|c cs IH]; intros acc r Hrun Hvalid; [constructor|].
  simpl in Hrun.
  destruct (_validateCondition rules fuel c 0) as [sub| |] eqn:Hc;
    try discriminate.
  simpl in Hrun. constructor.
  - exists sub. split; [exact Hc|].
    pose proof (validateAll_acc_valid _ _ _ _ Hrun Hvalid) as Hacc.
    simpl in Hacc. now apply andb_true_iff in Hacc as [_ ?].
  - exact (IH _ _ Hrun Hvalid).
Qed.

(** What an accepted condition looks like: after the reference it may be is
    resolved, it carries exactly one branch, and the branch is an array. *)
Lemma _validateCondition_valid_shape (fuel : nat) (condition : value)
    (depth : nat) (r : ValidationResult) :
  _validateCondition rules fuel condition depth = Ok r ->
  isValid r = true ->
  exists condition' type nodes,
    resolveNode rules condition = Ok condition'
    /\ branchCount condition' = 1
    /\ conditionType condition' = Ok (Some type)
    /\ own_get condition' (branchKey type) = VArr nodes.
Proof.
  destruct fuel as [|fuel]; [discriminate|].
  cbn [_validateCondition].
  destruct (resolveNode rules condition) as [condition'| |]; try discriminate.
  cbn [bind].
  destruct (isValid (_isValidCondition condition')) eqn:Hvalid; cbn [negb].
  - destruct (_isValidCondition_true _ Hvalid) as (_ & Hcount & type & Htype).
    rewrite Htype. cbn [bind].
    rewrite (EvaluatorFacts.conditionType_getProp _ _ _ Htype). cbn [bind].
    destruct (own_get condition' (branchKey type)) as [| | | | |nodes|] eqn:Hb;
      try (intros [= <-]; discriminate).
    intros _ _. exists condition', type, nodes. auto.
  - intros [= <-] Hr. congruence.
Qed.

(** C5.  A rule [validate] accepts is an object whose normalized conditions
    are a sequence with at least one element, the first of them not the
    empty object, and each top-level condition carries exactly one branch
    whose value is an array; no test bears on the number of elements of a
    branch. *)
Theorem validate_accepts_nonempty_conditions (fuel : nat) (rule : value)
    (r : ValidationResult) :
  validate rules fuel rule = Ok r ->
  isValid r = true ->
  isObject rule = true
  /\ normalize (own_get rule "conditions") <> []
  /\ noConditions (normalize (own_get rule "conditions")) = false
  /\ Forall (fun c => exists condition' type nodes,
                resolveNode rules c = Ok condition'
                /\ branchCount condition' = 1
                /\ conditionType condition' = Ok (Some type)
                /\ own_get condition' (branchKey type) = VArr nodes)
       (normalize (own_get rule "conditions")).
Proof.
  unfold validate.
  destruct (isObject rule) eqn:Hobj; cbn [negb].
  2: { intros [= <-]; discriminate. }
  assert (Hget : getProp rule "conditions" = Ok (own_get rule "conditions"))
    by (destruct rule; try discriminate; reflexivity).
  rewrite Hget. cbn [bind].
  destruct (noConditions (normalize (own_get rule "conditions"))) eqn:Hguard.
  { intros [= <-]; discriminate. }
  intros Hrun Hvalid. repeat split.
  - intros Hnil. rewrite Hnil in Hguard. discriminate.
  - pose proof (validateAll_valid _ _ _ _ Hrun Hvalid) as Hall.
    eapply Forall_impl; [|exact Hall].
    intros c (sub & Hc & Hsub).
    exact (_validateCondition_valid_shape _ _ _ _ Hc Hsub).
Qed.

(** C6.  A nested condition whose branch is empty keeps its [result] key
    through validation: the test on [result] stands inside the loop over the
    nodes of the branch, which has no turn. *)
Theorem nested_result_on_empty_branch_accepted (fuel : nat) :
  validate rules (S (S fuel)) Sample.nestedResultRule = Ok valid.
Proof. reflexivity. Qed.

(** With one node in the branch the same nested condition is refused. *)
Lemma nested_result_refused (fuel : nat) :
  exists el,
    validate rules (S (S fuel)) Sample.nestedResultRule1
    = Ok (invalid msg_nested el).
Proof. eexists. reflexivity. Qed.

(** What a valid answer of the loop of [_validateCondition] says of the
    nodes: each resolved, each nested condition accepted in its turn, and,
    when there was at least one turn, the test on [result] did not fire. *)
Lemma validateNodes_valid (call : value -> outcome ValidationResult)
    (condition : value) (depth : nat) (nodes : list value) :
  forall acc r,
    validateNodes rules call condition depth nodes acc = Ok r ->
    isValid r = true ->
    Forall (fun node => exists node',
                resolveNode rules node = Ok node'
                /\ (isCondition node' = true ->
                    exists subResult,
                      call node' = Ok subResult /\ isValid subResult = true))
      nodes
    /\ (nodes <> [] -> (Nat.ltb 0 depth && has_key "result" condition) = false).
Proof.
  induction nodes as [|node nodes IH]; intros acc r Hrun Hvalid.
  - split; [constructor | congruence].
  - cbn [validateNodes] in Hrun.
    destruct (resolveNode rules node) as [node'| |] eqn:Hres; try discriminate.
    cbn [bind] in Hrun.
    destruct (isCondition node') eqn:Hcond.
    + destruct (call node') as [sub| |] eqn:Hcall; try discriminate.
      cbn [bind] in Hrun. rewrite andb_false_r in Hrun.
      destruct (Nat.ltb 0 depth && has_key "result" condition) eqn:Hkey.
      { injection Hrun as <-. discriminate. }
      destruct (isValid (merge acc sub)) eqn:Hmerge; cbn [negb] in Hrun.
      2: { injection Hrun as <-. congruence. }
      destruct (IH _ _ Hrun Hvalid) as [Hrest _].
      split; [|intros _; reflexivity].
      constructor; [|exact Hrest].
      exists node'. split; [exact Hres|]. intros _. exists sub.
      split; [exact Hcall|].
      cbn in Hmerge. now apply andb_true_iff in Hmerge as [_ ?].
    + destruct (isConstraint node') eqn:Hcons; cbn [bind negb andb] in Hrun.
      2: { injection Hrun as <-. discriminate. }
      destruct (Nat.ltb 0 depth && has_key "result" condition) eqn:Hkey.
      { injection Hrun as <-. discriminate. }
      destruct (isValid (merge acc (_validateConstraint node'))) eqn:Hmerge;
        cbn [negb] in Hrun.
      2: { injection Hrun as <-. congruence. }
      destruct (IH _ _ Hrun Hvalid) as [Hrest _].
      split; [|intros _; reflexivity].
      constructor; [|exact Hrest].
      exists node'. split; [exact Hres|]. intros H. congruence.
Qed.

(** A value with a branch resolves to itself. *)
Lemma conditionType_resolveNode (condition : value) (type : ConditionType) :
  conditionType condition = Ok (Some type) ->
  resolveNode rules condition = Ok condition.
Proof. destruct condition; try discriminate; reflexivity. Qed.

(** [accepted c depth]: some call of [_validateCondition] on the resolved
    condition [c] at [depth] returns a valid result. *)
Lemma accepted_nested (fuel : nat) (parent child : value) (depth : nat)
    (r : ValidationResult) :
  _validateCondition rules fuel parent depth = Ok r ->
  isValid r = true ->
  nestedIn rules parent child ->
  exists fuel' r',
    _validateCondition rules fuel' child (S depth) = Ok r'
    /\ isValid r' = true.
Proof.
  intros Hrun Hvalid [type nodes node Htype Hbranch Hin Hres Hcond].
  destruct fuel as [|fuel]; [discriminate|].
  pose proof (conditionType_resolveNode _ _ Htype) as Hself.
  destruct (isValid (_isValidCondition parent)) eqn:Hshape.
  - rewrite (ReferenceFacts._validateCondition_unfold rules _ _ _ _ _
               Hself Hshape Htype), Hbranch in Hrun.
    destruct (validateNodes_valid _ _ _ _ _ _ Hrun Hvalid) as [Hall _].
    rewrite Forall_forall in Hall.
    destruct (Hall _ Hin) as (node' & Hres' & Hsub).
    rewrite Hres in Hres'. injection Hres' as <-.
    destruct (Hsub Hcond) as (sub & Hcall & Hok).
    exists fuel, sub. split; assumption.
  - cbn [_validateCondition] in Hrun. rewrite Hself in Hrun.
    cbn [bind] in Hrun. rewrite Hshape in Hrun. cbn [negb] in Hrun.
    injection Hrun as <-. congruence.
Qed.

Lemma accepted_no_result (fuel : nat) (condition : value) (depth : nat)
    (r : ValidationResult) :
  _validateCondition rules fuel condition (S depth) = Ok r ->
  isValid r = true ->
  hasNodes condition ->
  has_key "result" condition = false.
Proof.
  intros Hrun Hvalid (type & node & nodes & Htype & Hbranch).
  destruct fuel as [|fuel]; [discriminate|].
  pose proof (conditionType_resolveNode _ _ Htype) as Hself.
  destruct (isValid (_isValidCondition condition)) eqn:Hshape.
  - rewrite (ReferenceFacts._validateCondition_unfold rules _ _ _ _ _
               Hself Hshape Htype), Hbranch in Hrun.
    destruct (validateNodes_valid _ _ _ _ _ _ Hrun Hvalid) as [_ Hkey].
    apply Hkey. discriminate.
  - cbn [_validateCondition] in Hrun. rewrite Hself in Hrun.
    cbn [bind] in Hrun. rewrite Hshape in Hrun. cbn [negb] in Hrun.
    injection Hrun as <-. congruence.
Qed.

Lemma accepted_below (root : value) (fuel : nat) (r : ValidationResult)
    (depth : nat) (n : value) :
  _validateCondition rules fuel root depth = Ok r ->
  isValid r = true ->
  nestedBelow rules root n ->
  exists fuel' depth' r',
    _validateCondition rules fuel' n (S depth') = Ok r'
    /\ isValid r' = true.
Proof.
  intros Hrun Hvalid Hbelow.
  induction Hbelow as [child Hin | mid child _ IH Hin].
  - destruct (accepted_nested _ _ _ _ _ Hrun Hvalid Hin) as (f & r' & H1 & H2).
    exists f, depth, r'. split; assumption.
  - destruct IH as (f & d & r' & H1 & H2).
    destruct (accepted_nested _ _ _ _ _ H1 H2 Hin) as (f' & r'' & H3 & H4).
    exists f', (S d), r''. split; assumption.
Qed.

(** A resolved top-level condition is validated as the reference to it is. *)
Lemma _validateCondition_resolved (fuel : nat) (condition condition' : value)
    (depth : nat) (r : ValidationResult) :
  _validateCondition rules fuel condition depth = Ok r ->
  isValid r = true ->
  resolveNode rules condition = Ok condition' ->
  _validateCondition rules fuel condition' depth = Ok r.
Proof.
  intros Hrun Hvalid Hres.
  destruct (_validateCondition_valid_shape _ _ _ _ Hrun Hvalid)
    as (c' & type & nodes & Hres' & _ & Htype & _).
  rewrite Hres in Hres'. injection Hres' as <-.
  destruct fuel as [|fuel]; [discriminate|].
  cbn [_validateCondition] in Hrun |- *.
  rewrite Hres in Hrun. now rewrite (conditionType_resolveNode _ _ Htype).
Qed.

(** X1.  In a rule [validate] accepts, no condition nested below a
    top-level condition carries a [result] key, unless its branch has no
    node. *)
Theorem accepted_rule_nested_result (fuel : nat) (rule : value)
    (r : ValidationResult) (top top' n : value) :
  validate rules fuel rule = Ok r ->
  isValid r = true ->
  In top (normalize (own_get rule "conditions")) ->
  resolveNode rules top = Ok top' ->
  nestedBelow rules top' n ->
  hasNodes n ->
  has_key "result" n = false.
Proof.
  unfold validate.
  destruct (isObject rule) eqn:Hobj; cbn [negb].
  2: { intros [= <-]; discriminate. }
  assert (Hget : getProp rule "conditions" = Ok (own_get rule "conditions"))
    by (destruct rule; try discriminate; reflexivity).
  rewrite Hget. cbn [bind].
  destruct (noConditions (normalize (own_get rule "conditions"))).
  { intros [= <-]; discriminate. }
  intros Hrun Hvalid Hin Hres Hbelow Hnodes.
  pose proof (validateAll_valid _ _ _ _ Hrun Hvalid) as Hall.
  rewrite Forall_forall in Hall.
  destruct (Hall _ Hin) as (sub & Htop & Hsub).
  pose proof (_validateCondition_resolved _ _ _ _ _ Htop Hsub Hres) as Htop'.
  destruct (accepted_below _ _ _ _ _ Htop' Hsub Hbelow) as (f & d & r' & H1 & H2).
  exact (accepted_no_result _ _ _ _ H1 H2 Hnodes).
Qed.

End WithHost.
End ValidatorFacts.

Module ObjectDiscoveryFacts.
Import ObjectDiscovery Spec.

(** On an object the [in] operator is the key test the classifiers use. *)
Lemma js_in_object (k : string) (props : list (string * value)) :
  js_in k (VObj props) = Ok (has_key k (VObj props)).
Proof. reflexivity. Qed.

(** C8.  [isCondition(x)] holds iff [x] is an object and at least one of the
    keys [any], [all], [none] is present in it; an object that carries two
    or three of them is a condition too. *)
Theorem isCondition_at_least_one (x : value) :
  isCondition x = true <-> (isObject x = true /\ 1 <= branchCount x).
Proof.
  destruct x; try (split; [discriminate | intros [H _]; discriminate H]).
  unfold isCondition, branchCount, has_key. simpl.
  destruct (lookup "any" props), (lookup "all" props), (lookup "none" props);
    simpl; split; try (intros; split; [reflexivity | lia]);
    try reflexivity; try discriminate; intros [_ H]; lia.
Qed.

(** C8, with "exactly one" as the specification has it, fails on
    [{any: [], all: []}]: it is a
    condition, and carries two of the keys. *)
Lemma isCondition_two_branches :
  isCondition Sample.twoBranches = true
  /\ ~ (isObject Sample.twoBranches = true /\ branchCount Sample.twoBranches = 1).
Proof. split; [reflexivity | intros [_ H]; discriminate H]. Qed.

End ObjectDiscoveryFacts.

Module EngineFacts.
Import ObjectDiscovery Rules Evaluator Validator Spec.

Section WithHost.
Context {host : Host}.
Variable rules : list StoredRule.

(** C4.  A string reference that is a node of a branch and whose
    identifier matches no stored rule makes [validate] and [evaluate] throw
    the lookup error, whenever the traversal gets to it: [validate] when the
    top-level conditions before returned and the loops on the way ran
    through the nodes before the reference; [evaluate] when the top-level
    conditions before were not satisfied and the loops on the way ran
    through the nodes before it.  The error is the outcome of the call,
    neither a validation result nor a boolean.  A top-level condition that
    is itself a string is resolved by [validate], which throws the lookup
    error on an unknown identifier, and not by [evaluate], which throws a
    TypeError on every top-level string it gets to. *)
Theorem unknown_reference_throws (id : string) :
  findRule rules id = None ->
  (forall fuel rule cs conditions pre c post results,
      isObject rule = true ->
      getProp rule "conditions" = Ok cs ->
      sequenceOf cs conditions ->
      noConditions conditions = false ->
      conditions = pre ++ c :: post ->
      Forall2 (fun p r => _validateCondition rules fuel p 0 = Ok r) pre results ->
      validReaches rules id fuel c 0 ->
      validate rules fuel rule = Throw (Error (lookupMessage id)))
  /\ (forall fuel rule criteria cs conditions pre c post,
         isArray criteria = false ->
         getProp rule "conditions" = Ok cs ->
         sequenceOf cs conditions ->
         conditions = pre ++ c :: post ->
         Forall (fun p => _evaluateCondition rules fuel p criteria = Ok false) pre ->
         evalReaches rules criteria id fuel c ->
         evaluate rules fuel rule criteria = Throw (Error (lookupMessage id)))
  /\ (forall fuel rule criteria cs conditions pre name post,
         isArray criteria = false ->
         getProp rule "conditions" = Ok cs ->
         sequenceOf cs conditions ->
         conditions = pre ++ VStr name :: post ->
         Forall (fun p => _evaluateCondition rules (S fuel) p criteria = Ok false)
           pre ->
         evaluate rules (S fuel) rule criteria = Throw TypeError).
Proof.
  intros Hid. split; [|split].
  - intros fuel rule cs conditions pre c post results
      Hobj Hcs Hseq Hguard Hsplit Hpre Hreach.
    unfold validate. rewrite Hobj, Hcs. cbn [negb bind].
    rewrite (EvaluatorFacts.normalize_sequenceOf _ _ Hseq), Hguard, Hsplit.
    apply (ValidatorFacts.validateAll_throw rules fuel pre post c results);
      [exact Hpre|].
    now apply ReferenceFacts.validateCondition_reaches.
  - intros fuel rule criteria cs conditions pre c post
      Hcrit Hcs Hseq Hsplit Hpre Hreach.
    unfold evaluate. rewrite Hcs. cbn [bind].
    rewrite (EvaluatorFacts.normalize_sequenceOf _ _ Hseq), Hsplit.
    rewrite (EvaluatorFacts._evaluateRule_skip rules _ _ _ _ Hpre).
    cbn [_evaluateRule].
    rewrite (ReferenceFacts.evaluateCondition_reaches rules _ _ _ _ Hid Hreach).
    destruct criteria; try reflexivity. discriminate.
  - intros fuel rule criteria cs conditions pre name post
      Hcrit Hcs Hseq Hsplit Hpre.
    unfold evaluate. rewrite Hcs. cbn [bind].
    rewrite (EvaluatorFacts.normalize_sequenceOf _ _ Hseq), Hsplit.
    rewrite (EvaluatorFacts._evaluateRule_skip rules _ _ _ _ Hpre).
    destruct criteria; try reflexivity. discriminate.
Qed.

(** C10.  [_checkConstraint] guards [contains] and [not contains] with
    [Array.isArray(criterion)], so a defined criterion that is not an array
    gives [false] and [true]; [contains any] and [not contains any] call
    [criterion.includes] unguarded, so they throw a TypeError on a defined
    criterion that is neither an array nor a string as soon as the value has
    an element; and there are a constraint with an array value and criteria
    whose field resolves to a number for which the rule passes validation
    and its evaluation throws a TypeError. *)
Theorem set_operators_not_total :
  (forall constraint criteria field criterion,
      getProp constraint "field" = Ok field ->
      resolveField field criteria = Ok criterion ->
      criterion <> VUndefined ->
      isArray criterion = false ->
      (own_get constraint "operator" = VStr "contains" ->
       _checkConstraint constraint criteria = Ok false)
      /\ (own_get constraint "operator" = VStr "not contains" ->
          _checkConstraint constraint criteria = Ok true))
  /\ (forall constraint criteria field criterion x xs,
         getProp constraint "field" = Ok field ->
         resolveField field criteria = Ok criterion ->
         criterion <> VUndefined ->
         isArray criterion = false ->
         is_string criterion = false ->
         own_get constraint "value" = VArr (x :: xs) ->
         (own_get constraint "operator" = VStr "contains any" ->
          _checkConstraint constraint criteria = Throw TypeError)
         /\ (own_get constraint "operator" = VStr "not contains any" ->
             _checkConstraint constraint criteria = Throw TypeError))
  /\ (exists field v criteria n,
         isArray v = true
         /\ resolveField (VStr field) criteria = Ok (VNum n)
         /\ forall operator,
              operator = "contains any" \/ operator = "not contains any" ->
              let constraint := Sample.constraint field operator v in
              let rule := Sample.rule (VObj [("all", VArr [constraint])]) in
              _checkConstraint constraint criteria = Throw TypeError
              /\ forall fuel,
                   validate rules (S (S fuel)) rule = Ok valid
                   /\ evaluate rules (S (S fuel)) rule criteria = Throw TypeError).
Proof.
  split; [exact EvaluatorFacts.contains_guarded|].
  split; [exact EvaluatorFacts.contains_any_unguarded|].
  exists "tags", (VArr [VStr "a"]), Sample.numberTags, 5%Z.
  split; [reflexivity | split; [reflexivity|]].
  intros operator [-> | ->]; (split; [reflexivity | intros fuel; split; reflexivity]).
Qed.

(** X2.  A node that is neither a condition nor a constraint, once the loop
    gets to it, ends [_evaluateCondition] with [false] whatever the branch
    and the running value. *)
Theorem invalid_node_ends_false (fuel : nat) (condition criteria : value)
    (type : ConditionType) (pre post : list value) (node node' : value)
    (acc : bool) :
  conditionType condition = Ok (Some type) ->
  iterate (own_get condition (branchKey type)) = Ok (pre ++ node :: post) ->
  evalRuns rules fuel criteria type pre (seed type) acc ->
  resolveNode rules node = Ok node' ->
  selectFn node' = None ->
  _evaluateCondition rules (S fuel) condition criteria = Ok false.
Proof.
  intros Htype Hiter Hruns Hres Hsel.
  rewrite EvaluatorFacts._evaluateCondition_unfold, Htype. cbn [bind].
  rewrite (EvaluatorFacts.conditionType_getProp _ _ _ Htype). cbn [bind].
  rewrite Hiter. cbn [bind].
  rewrite (ReferenceFacts.evaluateNodes_runs rules _ _ _ _ _ _ Hruns).
  cbn [evaluateNodes]. rewrite Hres. cbn [bind]. now rewrite Hsel.
Qed.

(** X3.  A constraint whose operator is outside the table is not
    satisfied. *)
Theorem unknown_operator_false (constraint criteria field criterion : value) :
  getProp constraint "field" = Ok field ->
  resolveField field criteria = Ok criterion ->
  operatorOf (own_get constraint "operator") = None ->
  _checkConstraint constraint criteria = Ok false.
Proof.
  intros Hfield Hres Hop.
  rewrite (EvaluatorFacts._checkConstraint_unfold _ _ _ _ Hfield Hres), Hop.
  destruct (strict_equals VUndefined criterion); reflexivity.
Qed.

(** X4.  [evaluate] does not resolve a top-level condition that is a
    string: the [in] test of [conditionType] throws on it, stored rule or
    not. *)
Theorem evaluate_top_level_string (fuel : nat) (rule criteria : value)
    (id : string) (rest : list value) :
  isArray criteria = false ->
  normalize (own_get rule "conditions") = VStr id :: rest ->
  evaluate rules (S fuel) rule criteria = Throw TypeError.
Proof.
  intros Hcrit Hcs. unfold evaluate.
  destruct rule; try discriminate;
    cbn [getProp bind]; rewrite Hcs; destruct criteria; try discriminate;
    reflexivity.
Qed.

End WithHost.
End EngineFacts.

(** * The budget of nested calls

    A call that returns or throws within a budget does the same within any
    larger one: the budget only bounds how deep references and nested
    conditions may go. *)

Module FuelFacts.
Import ObjectDiscovery Rules Evaluator Validator.

Lemma settles_refl {A : Type} (m : outcome A) : settles m m.
Proof. intros _. reflexivity. Qed.

Lemma settles_trans {A : Type} (m1 m2 m3 : outcome A) :
  settles m1 m2 -> settles m2 m3 -> settles m1 m3.
Proof.
  intros H12 H23 H1. rewrite <- (H12 H1). apply H23. now rewrite (H12 H1).
Qed.

Lemma settles_bind {A B : Type} (m m' : outcome A) (k k' : A -> outcome B) :
  settles m m' ->
  (forall a, settles (k a) (k' a)) ->
  settles (bind m k) (bind m' k').
Proof.
  intros Hm Hk H.
  destruct m as [a| |]; cbn [bind] in *.
  - rewrite (Hm ltac:(discriminate)). cbn [bind]. now apply Hk.
  - now rewrite (Hm ltac:(discriminate)).
  - now elim H.
Qed.

Section WithHost.
Context {host : Host}.
Variable rules : list StoredRule.

Lemma step_settles (call call' : NodeFn -> value -> outcome bool)
    (type : ConditionType) (acc : bool) (fn : NodeFn) (node : value) :
  settles (call fn node) (call' fn node) ->
  settles (step call type acc fn node) (step call' type acc fn node).
Proof.
  intros H. destruct type, acc; cbn [step]; try apply settles_refl; try exact H.
  apply settles_bind; [exact H | intros; apply settles_refl].
Qed.

Lemma evaluateNodes_settles (call call' : NodeFn -> value -> outcome bool)
    (type : ConditionType) (nodes : list value) :
  (forall fn node, settles (call fn node) (call' fn node)) ->
  forall acc,
    settles (evaluateNodes rules call type nodes acc)
      (evaluateNodes rules call' type nodes acc).
Proof.
  intros Hcall. induction nodes as [|node nodes IH]; intros acc;
    cbn [evaluateNodes]; [apply settles_refl|].
  apply settles_bind; [apply settles_refl|]. intros node'.
  destruct (selectFn node'); [|apply settles_refl].
  apply settles_bind; [now apply step_settles | intros; apply IH].
Qed.

Lemma _evaluateCondition_succ (fuel : nat) :
  forall condition criteria,
    settles (_evaluateCondition rules fuel condition criteria)
      (_evaluateCondition rules (S fuel) condition criteria).
Proof.
  induction fuel as [|fuel IH]; intros condition criteria.
  - intros H. now elim H.
  - rewrite !EvaluatorFacts._evaluateCondition_unfold.
    apply settles_bind; [apply settles_refl|]. intros [type|]; [|apply settles_refl].
    apply settles_bind; [apply settles_refl|]. intros branch.
    apply settles_bind; [apply settles_refl|]. intros nodes.
    apply evaluateNodes_settles. intros [|] node; [apply IH | apply settles_refl].
Qed.

Lemma _evaluateCondition_le (fuel fuel' : nat) (condition criteria : value) :
  fuel <= fuel' ->
  settles (_evaluateCondition rules fuel condition criteria)
    (_evaluateCondition rules fuel' condition criteria).
Proof.
  induction 1 as [|fuel' _ IH]; [apply settles_refl|].
  eapply settles_trans; [exact IH | apply _evaluateCondition_succ].
Qed.

Lemma _evaluateRule_le (fuel fuel' : nat) (conditions : list value)
    (criteria : value) :
  fuel <= fuel' ->
  settles (_evaluateRule rules fuel conditions criteria)
    (_evaluateRule rules fuel' conditions criteria).
Proof.
  intros Hle. induction conditions as [|c cs IH]; cbn [_evaluateRule];
    [apply settles_refl|].
  apply settles_bind; [now apply _evaluateCondition_le|].
  intros [|]; [apply settles_refl | exact IH].
Qed.

(** X5.  [evaluate] under a larger budget: the same boolean, array of
    booleans or exception. *)
Theorem evaluate_budget (fuel fuel' : nat) (rule criteria : value) :
  fuel <= fuel' ->
  settles (evaluate rules fuel rule criteria) (evaluate rules fuel' rule criteria).
Proof.
  intros Hle. unfold evaluate.
  apply settles_bind; [apply settles_refl|]. intros cs.
  destruct criteria as [| | | | |records|];
    try (apply settles_bind; [now apply _evaluateRule_le | intros; apply settles_refl]).
  apply settles_bind; [|intros; apply settles_refl].
  induction records as [|c records IH]; cbn [evaluateEach]; [apply settles_refl|].
  apply settles_bind; [now apply _evaluateRule_le|]. intros b.
  apply settles_bind; [exact IH | intros; apply settles_refl].
Qed.

Lemma validateNodes_settles (call call' : value -> outcome ValidationResult)
    (condition : value) (depth : nat) (nodes : list value) :
  (forall node, settles (call node) (call' node)) ->
  forall acc,
    settles (validateNodes rules call condition depth nodes acc)
      (validateNodes rules call' condition depth nodes acc).
Proof.
  intros Hcall. induction nodes as [|node nodes IH]; intros acc;
    cbn [validateNodes]; [apply settles_refl|].
  apply settles_bind; [apply settles_refl|]. intros node'.
  apply settles_bind.
  - destruct (isCondition node'); [|apply settles_refl].
    apply settles_bind; [apply Hcall | intros; apply settles_refl].
  - intros result'.
    destruct (negb (isConstraint node') && negb (isCondition node'));
      [apply settles_refl|].
    destruct (Nat.ltb 0 depth && has_key "result" condition);
      [apply settles_refl|].
    destruct (negb (isValid result')); [apply settles_refl | apply IH].
Qed.

Lemma _validateCondition_succ (fuel : nat) :
  forall condition depth,
    settles (_validateCondition rules fuel condition depth)
      (_validateCondition rules (S fuel) condition depth).
Proof.
  induction fuel as [|fuel IH]; intros condition depth.
  - intros H. now elim H.
  - change (settles
      (condition' <- resolveNode rules condition ;;
       let result := _isValidCondition condition' in
       if negb (isValid result) then Ok result
       else
         type <- conditionType condition' ;;
         branch <- getProp condition'
                     (match type with Some t => branchKey t | None => "null" end) ;;
         match branch with
         | VArr nodes =>
             validateNodes rules
               (fun node => _validateCondition rules fuel node (S depth))
               condition' depth nodes result
         | _ => Ok (invalid (msg_iterable type) condition')
         end)
      (condition' <- resolveNode rules condition ;;
       let result := _isValidCondition condition' in
       if negb (isValid result) then Ok result
       else
         type <- conditionType condition' ;;
         branch <- getProp condition'
                     (match type with Some t => branchKey t | None => "null" end) ;;
         match branch with
         | VArr nodes =>
             validateNodes rules
               (fun node => _validateCondition rules (S fuel) node (S depth))
               condition' depth nodes result
         | _ => Ok (invalid (msg_iterable type) condition')
         end)).
    apply settles_bind; [apply settles_refl|]. intros condition'. cbv zeta.
    destruct (negb (isValid (_isValidCondition condition'))); [apply settles_refl|].
    apply settles_bind; [apply settles_refl|]. intros type.
    apply settles_bind; [apply settles_refl|]. intros branch.
    destruct branch; try apply settles_refl.
    apply validateNodes_settles. intros node. apply IH.
Qed.

Lemma _validateCondition_le (fuel fuel' : nat) (condition : value) (depth : nat) :
  fuel <= fuel' ->
  settles (_validateCondition rules fuel condition depth)
    (_validateCondition rules fuel' condition depth).
Proof.
  induction 1 as [|fuel' _ IH]; [apply settles_refl|].
  eapply settles_trans; [exact IH | apply _validateCondition_succ].
Qed.

(** X6.  [validate] under a larger budget: the same result or exception. *)
Theorem validate_budget (fuel fuel' : nat) (rule : value) :
  fuel <= fuel' ->
  settles (validate rules fuel rule) (validate rules fuel' rule).
Proof.
  intros Hle. unfold validate.
  destruct (negb (isObject rule)); [apply settles_refl|].
  apply settles_bind; [apply settles_refl|]. intros cs. cbv zeta.
  destruct (noConditions (normalize cs)); [apply settles_refl|].
  generalize valid as acc.
  induction (normalize cs) as [|c conditions IH]; intros acc;
    cbn [validateAll]; [apply settles_refl|].
  apply settles_bind; [now apply _validateCondition_le | intros; apply IH].
Qed.

End WithHost.
End FuelFacts.

(** * The rest of the classes *)

Module PathFacts.
Import ObjectDiscovery.

Lemma split_append (sep : ascii) (a b : string) :
  split sep (String.append a (String sep b)) = split sep a ++ split sep b.
Proof.
  induction a as [|c a IH]; cbn [String.append split].
  - rewrite Ascii.eqb_refl.
    destruct (split sep b) eqn:Hb; [|reflexivity].
    destruct b; cbn [split] in Hb; [discriminate|].
    destruct (split sep b); [discriminate|].
    destruct (Ascii.eqb a sep); discriminate.
  - rewrite IH.
    destruct (split sep a) as [|h t] eqn:Ha.
    + destruct a; cbn [split] in Ha; [discriminate|].
      destruct (split sep a0); [discriminate|].
      destruct (Ascii.eqb a sep); discriminate.
    + cbn [app]. destruct (Ascii.eqb c sep); reflexivity.
Qed.

Lemma split_nonempty (sep : ascii) (s : string) : split sep s <> [].
Proof.
  destruct s as [|c s]; cbn [split]; [discriminate|].
  destruct (split sep s); [discriminate|].
  destruct (Ascii.eqb c sep); discriminate.
Qed.

(** Once the walk is on a falsy value it stays on [undefined]. *)
Lemma walk_falsy (parts : list string) (v : value) :
  parts <> [] ->
  truthy v = false ->
  fold_left
    (fun prev curr => if truthy prev then own_get prev curr else VUndefined)
    parts v = VUndefined.
Proof.
  intros Hparts Hv. destruct parts as [|p parts]; [congruence|].
  cbn [fold_left]. rewrite Hv. clear.
  induction parts as [|q parts IH]; [reflexivity | exact IH].
Qed.

(** X7.  [resolveNestedProperty] walks a dotted path one part after the
    other: the path [a.b] resolves as [b] from what [a] resolves to, and to
    [undefined] as soon as what [a] resolves to is falsy ([undefined],
    [null], [false], [0] or the empty string), defined or not. *)
Theorem resolveNestedProperty_compose (a b : string) (obj : value) :
  resolveNestedProperty (String.append a (String "." b)) obj
  = resolveNestedProperty b (resolveNestedProperty a obj)
  /\ (truthy (resolveNestedProperty a obj) = false ->
      resolveNestedProperty (String.append a (String "." b)) obj = VUndefined).
Proof.
  assert (H : resolveNestedProperty (String.append a (String "." b)) obj
              = resolveNestedProperty b (resolveNestedProperty a obj)).
  { unfold resolveNestedProperty. now rewrite split_append, fold_left_app. }
  split; [exact H|].
  intros Hfalsy. rewrite H. unfold resolveNestedProperty at 1.
  apply walk_falsy; [apply split_nonempty | exact Hfalsy].
Qed.

End PathFacts.

Module ClassifierFacts.
Import ObjectDiscovery Validator Spec.

(** X8.  [conditionType] answers a branch exactly on the values
    [isCondition] accepts; on the others it answers [null] when they are
    arrays or objects and throws a TypeError when they are primitives or
    [null], where [isCondition] answers [false]. *)
Theorem conditionType_isCondition (x : value) :
  (isCondition x = true <-> exists type, conditionType x = Ok (Some type))
  /\ (isCondition x = false ->
      if isObject x || isArray x then conditionType x = Ok None
      else conditionType x = Throw TypeError).
Proof.
  destruct x;
    try (split; [split; [discriminate | intros [t H]; discriminate H]
                | intros _; reflexivity]).
  unfold isCondition, conditionType, has_key, js_in. simpl.
  destruct (lookup "any" props), (lookup "all" props), (lookup "none" props);
    simpl; (split; [split; [intros _; eexists; reflexivity | reflexivity]
                   | discriminate])
    || (split; [split; [discriminate | intros [t H]; discriminate H]
               | intros _; reflexivity]).
Qed.

(** X9.  [_isValidCondition] accepts exactly the objects that carry one, and
    only one, of the keys [any], [all], [none]; an object with none of them
    is refused as an invalid structure and one with several with the
    message on more than one property. *)
Theorem _isValidCondition_exactly_one (x : value) :
  (isValid (_isValidCondition x) = true
   <-> isObject x = true /\ branchCount x = 1)
  /\ (isObject x = true -> branchCount x = 0 ->
      _isValidCondition x = invalid msg_structure x)
  /\ (isObject x = true -> 2 <= branchCount x ->
      _isValidCondition x = invalid msg_several x).
Proof.
  destruct x;
    try (split; [split; [discriminate | intros [H _]; discriminate H]
                | split; intros H; discriminate H]).
  unfold _isValidCondition, isCondition, branchCount, has_key. simpl.
  destruct (lookup "any" props), (lookup "all" props), (lookup "none" props);
    simpl;
    (split; [split; [intros H; try discriminate H; split; reflexivity
                    | intros [_ H]; try discriminate H; reflexivity]
            | split; intros _ H; try reflexivity; try discriminate H; lia]).
Qed.

End ClassifierFacts.

Module OperatorFacts.
Import ObjectDiscovery Rules Evaluator Validator Spec Shape.

(** X10.  The operator names [_validateConstraint] accepts are exactly the
    case labels of the switch of [_checkConstraint]: a validated constraint
    never falls to the [default] case, and every case can be validated. *)
Theorem operator_tables_agree (s : string) :
  existsb (String.eqb s) validatorOperators = true
  <-> exists op, operatorOf (VStr s) = Some op.
Proof.
  split.
  - intros H. apply existsb_exists in H as (name & Hin & Heq).
    apply String.eqb_eq in Heq. subst name.
    unfold validatorOperators in Hin. cbn [In] in Hin.
    repeat (destruct Hin as [<- | Hin]; [eexists; reflexivity|]).
    contradiction.
  - intros [op Hop]. unfold operatorOf in Hop.
    apply find_some in Hop as [_ Hname]. apply String.eqb_eq in Hname.
    subst s. destruct op; reflexivity.
Qed.

Section WithHost.
Context {host : Host}.

Lemma applyOperator_negation (op op' : Operator) (criterion v : value) :
  negation op = Some op' ->
  applyOperator (Some op') criterion v
  = (b <- applyOperator (Some op) criterion v ;; Ok (negb b)).
Proof.
  destruct op; intros [= <-]; cbn [applyOperator bind];
    rewrite ?negb_involutive; try reflexivity.
  - destruct (isArray v); cbn [negb]; [|reflexivity].
    destruct (includes v criterion); reflexivity.
  - destruct (isArray criterion); cbn [negb]; [|reflexivity].
    destruct (includes criterion v); reflexivity.
  - destruct v; reflexivity.
  - destruct (RegExp_new criterion); reflexivity.
Qed.

(** X11.  On a field that resolves to a defined value, each negated
    operator ([does not equal], [does not exist], [not in], [not contains],
    [not contains any], [does not match]) answers the negation of its
    positive operator on the same field and value, and throws when it
    does. *)
Theorem negated_operator_complements (c c' criteria field criterion : value)
    (op op' : Operator) :
  getProp c "field" = Ok field ->
  getProp c' "field" = Ok field ->
  own_get c' "value" = own_get c "value" ->
  operatorOf (own_get c "operator") = Some op ->
  operatorOf (own_get c' "operator") = Some op' ->
  negation op = Some op' ->
  resolveField field criteria = Ok criterion ->
  criterion <> VUndefined ->
  _checkConstraint c' criteria
  = (b <- _checkConstraint c criteria ;; Ok (negb b)).
Proof.
  intros Hf Hf' Hv Hop Hop' Hneg Hres Hdef.
  rewrite (EvaluatorFacts._checkConstraint_unfold _ _ _ _ Hf Hres).
  rewrite (EvaluatorFacts._checkConstraint_unfold _ _ _ _ Hf' Hres).
  rewrite (EvaluatorFacts.defined_not_undefined _ Hdef), Hop, Hop', Hv.
  now apply applyOperator_negation.
Qed.

Lemma some_includes (ys xs : list value) :
  some (fun x => includes (VArr ys) x) xs = Ok (intersects xs ys).
Proof.
  induction xs as [|x xs IH]; [reflexivity|].
  cbn [some includes bind intersects existsb].
  destruct (existsb (strict_equals x) ys); [reflexivity | exact IH].
Qed.

Lemma strict_equals_sym (a b : value) : strict_equals a b = strict_equals b a.
Proof.
  destruct a, b; try reflexivity; cbn [strict_equals].
  - destruct b, b0; reflexivity.
  - apply Z.eqb_sym.
  - apply String.eqb_sym.
Qed.

Lemma intersects_sym (xs ys : list value) : intersects xs ys = intersects ys xs.
Proof.
  apply eq_true_iff_eq. unfold intersects.
  rewrite !existsb_exists. split.
  - intros (x & Hx & H). apply existsb_exists in H as (y & Hy & Heq).
    exists y. split; [exact Hy|]. apply existsb_exists. exists x.
    split; [exact Hx|]. now rewrite strict_equals_sym.
  - intros (y & Hy & H). apply existsb_exists in H as (x & Hx & Heq).
    exists x. split; [exact Hx|]. apply existsb_exists. exists y.
    split; [exact Hy|]. now rewrite strict_equals_sym.
Qed.

(** X12.  When the field resolves to an array and the value is an array,
    [contains any] holds iff the two arrays share an element under [===]
    and [not contains any] iff they share none; the answer is the same with
    the two arrays exchanged. *)
Theorem contains_any_intersects (c criteria field : value) (ys xs : list value) :
  getProp c "field" = Ok field ->
  resolveField field criteria = Ok (VArr ys) ->
  own_get c "value" = VArr xs ->
  (own_get c "operator" = VStr "contains any" ->
   _checkConstraint c criteria = Ok (intersects xs ys))
  /\ (own_get c "operator" = VStr "not contains any" ->
      _checkConstraint c criteria = Ok (negb (intersects xs ys)))
  /\ intersects xs ys = intersects ys xs.
Proof.
  intros Hf Hres Hv.
  rewrite (EvaluatorFacts._checkConstraint_unfold _ _ _ _ Hf Hres), Hv.
  cbn [strict_equals].
  split; [|split].
  - intros ->.
    change (operatorOf (VStr "contains any")) with (Some contains_any).
    cbn [applyOperator]. apply some_includes.
  - intros ->.
    change (operatorOf (VStr "not contains any")) with (Some not_contains_any).
    cbn [applyOperator]. now rewrite some_includes.
  - apply intersects_sym.
Qed.

(** X13.  Against criteria that are [null] or [undefined], a constraint on
    a dotted field is not satisfied, whatever its operator, and a
    constraint on a plain field throws a TypeError. *)
Theorem checkConstraint_no_criteria (c criteria : value) (path : string) :
  criteria = VNull \/ criteria = VUndefined ->
  getProp c "field" = Ok (VStr path) ->
  _checkConstraint c criteria
  = if str_includes "." path then Ok false else Throw TypeError.
Proof.
  intros Hcrit Hf. unfold _checkConstraint. rewrite Hf. cbn [bind].
  unfold resolveField. cbn [includes ToString bind].
  destruct (str_includes "." path) eqn:Hdot.
  - cbn [bind]. unfold resolveNestedProperty.
    rewrite (PathFacts.walk_falsy _ _ (PathFacts.split_nonempty _ _));
      [reflexivity | destruct Hcrit as [-> | ->]; reflexivity].
  - destruct Hcrit as [-> | ->]; reflexivity.
Qed.

End WithHost.
End OperatorFacts.

Module ResultFacts.
Import ObjectDiscovery Rules Validator Spec Shape.

Lemma coherent_valid : coherent valid.
Proof. split; reflexivity. Qed.

Lemma coherent_invalid (msg : string) (el : value) : coherent (invalid msg el).
Proof. split; discriminate. Qed.

Lemma coherent_merge (a b : ValidationResult) :
  coherent a -> coherent b -> coherent (merge a b).
Proof.
  unfold coherent, merge. cbn [isValid error].
  destruct (isValid a), (isValid b), (error a), (error b);
    cbn [andb]; intros [Ha1 Ha2] [Hb1 Hb2]; split; intros H;
    try reflexivity; try discriminate;
    try (now specialize (Ha1 eq_refl)); try (now specialize (Hb1 eq_refl));
    try (now specialize (Ha2 eq_refl)); try (now specialize (Hb2 eq_refl)).
Qed.

Lemma coherent_isValidCondition (obj : value) : coherent (_isValidCondition obj).
Proof.
  unfold _isValidCondition.
  destruct (negb (isCondition obj)); [apply coherent_invalid|].
  cbv zeta.
  destruct ((has_key "any" obj && has_key "all" obj)
            || (has_key "any" obj && has_key "none" obj)
            || (has_key "all" obj && has_key "none" obj));
    [apply coherent_invalid | apply coherent_valid].
Qed.

Section WithHost.
Context {host : Host}.
Variable rules : list StoredRule.

Lemma coherent_validateConstraint (c : value) : coherent (_validateConstraint c).
Proof.
  unfold _validateConstraint.
  destruct (negb (is_string (own_get c "field"))); [apply coherent_invalid|].
  destruct (Evaluator.operatorOf (own_get c "operator")) as [op|];
    [|apply coherent_invalid].
  destruct (isSetOperator op && negb (isArray (own_get c "value")));
    [apply coherent_invalid|].
  destruct (isMatchOperator op); [|apply coherent_valid].
  destruct (RegExp_new (own_get c "value"));
    [apply coherent_valid | apply coherent_invalid].
Qed.

Lemma coherent_validateNodes (call : value -> outcome ValidationResult)
    (condition : value) (depth : nat) (nodes : list value) :
  (forall node r, call node = Ok r -> coherent r) ->
  forall acc r,
    coherent acc ->
    validateNodes rules call condition depth nodes acc = Ok r ->
    coherent r.
Proof.
  intros Hcall. induction nodes as [|node nodes IH]; intros acc r Hacc Hrun.
  - injection Hrun as <-. exact Hacc.
  - cbn [validateNodes] in Hrun.
    destruct (resolveNode rules node) as [node'| |]; try discriminate.
    cbn [bind] in Hrun.
    assert (Hstep : forall result',
               coherent result' ->
               (if negb (isConstraint node') && negb (isCondition node')
                then Ok (invalid msg_node node')
                else if Nat.ltb 0 depth && has_key "result" condition
                then Ok (invalid msg_nested node')
                else if negb (isValid result') then Ok result'
                else validateNodes rules call condition depth nodes result')
               = Ok r -> coherent r).
    { intros result' Hres' H.
      destruct (negb (isConstraint node') && negb (isCondition node')).
      { injection H as <-. apply coherent_invalid. }
      destruct (Nat.ltb 0 depth && has_key "result" condition).
      { injection H as <-. apply coherent_invalid. }
      destruct (negb (isValid result')).
      { injection H as <-. exact Hres'. }
      exact (IH _ _ Hres' H). }
    destruct (isCondition node').
    + destruct (call node') as [sub| |] eqn:Hsub; try discriminate.
      cbn [bind] in Hrun.
      apply (Hstep (merge acc sub)); [|exact Hrun].
      apply coherent_merge; [exact Hacc | exact (Hcall _ _ Hsub)].
    + destruct (isConstraint node'); cbn [bind] in Hrun.
      * apply (Hstep (merge acc (_validateConstraint node'))); [|exact Hrun].
        apply coherent_merge; [exact Hacc | apply coherent_validateConstraint].
      * exact (Hstep acc Hacc Hrun).
Qed.

Lemma coherent_validateCondition (fuel : nat) :
  forall condition depth r,
    _validateCondition rules fuel condition depth = Ok r -> coherent r.
Proof.
  induction fuel as [|fuel IH]; intros condition depth r Hrun; [discriminate|].
  cbn [_validateCondition] in Hrun.
  destruct (resolveNode rules condition) as [condition'| |]; try discriminate.
  cbn [bind] in Hrun.
  destruct (negb (isValid (_isValidCondition condition'))).
  { injection Hrun as <-. apply coherent_isValidCondition. }
  destruct (conditionType condition') as [type| |]; try discriminate.
  cbn [bind] in Hrun.
  destruct (getProp condition' _) as [branch| |]; try discriminate.
  cbn [bind] in Hrun.
  destruct branch;
    try (injection Hrun as <-; apply coherent_invalid).
  eapply coherent_validateNodes; [|apply coherent_isValidCondition|exact Hrun].
  intros node sub Hsub. exact (IH _ _ _ Hsub).
Qed.

(** X14.  Every result [validate] returns is coherent: [isValid] is [true]
    exactly when the result carries no [error]. *)
Theorem validate_coherent (fuel : nat) (rule : value) (r : ValidationResult) :
  validate rules fuel rule = Ok r ->
  (isValid r = true <-> error r = None).
Proof.
  unfold validate.
  destruct (negb (isObject rule)).
  { intros [= <-]. apply coherent_invalid. }
  destruct (getProp rule "conditions") as [cs| |]; try discriminate.
  cbn [bind]. cbv zeta.
  destruct (noConditions (normalize cs)).
  { intros [= <-]. apply coherent_invalid. }
  generalize coherent_valid. generalize valid as acc.
  induction (normalize cs) as [|c conditions IH]; intros acc Hacc Hrun.
  - injection Hrun as <-. exact Hacc.
  - cbn [validateAll] in Hrun.
    destruct (_validateCondition rules fuel c 0) as [sub| |] eqn:Hsub;
      try discriminate.
    cbn [bind] in Hrun.
    apply (IH (merge acc sub)); [|exact Hrun].
    apply coherent_merge; [exact Hacc|].
    exact (coherent_validateCondition _ _ _ _ Hsub).
Qed.

End WithHost.
End ResultFacts.

Module SoundnessFacts.
Import ObjectDiscovery Rules Evaluator Validator Spec Shape.

Lemma tame_bind {A B : Type} (m : outcome A) (k : A -> outcome B) :
  tame m -> (forall a, tame (k a)) -> tame (bind m k).
Proof.
  destruct m as [a|[]|]; cbn [bind tame]; intros Hm Hk; auto.
Qed.

Lemma tame_getProp (v : value) (k : string) : tame (getProp v k).
Proof. destruct v; exact I. Qed.

Lemma tame_includes (recv arg : value) : tame (includes recv arg).
Proof. destruct recv; exact I. Qed.

Lemma tame_some (f : value -> outcome bool) (xs : list value) :
  (forall x, tame (f x)) -> tame (some f xs).
Proof.
  intros Hf. induction xs as [|x xs IH]; [exact I|].
  cbn [some]. apply tame_bind; [apply Hf|]. intros [|]; [exact I | exact IH].
Qed.

Lemma tame_conditionType (v : value) : tame (conditionType v).
Proof.
  unfold conditionType.
  destruct v; try exact I; cbn [js_in bind];
    repeat match goal with
           | |- tame (if ?b then _ else _) => destruct b
           end; exact I.
Qed.

Lemma tame_iterate (v : value) : tame (iterate v).
Proof. destruct v; exact I. Qed.

Section WithHost.
Context {host : Host}.
Variable rules : list StoredRule.

Lemma tame_applyOperator (op : option Operator) (criterion v : value) :
  tame (applyOperator op criterion v).
Proof.
  destruct op as [[]|]; cbn [applyOperator]; try exact I.
  - destruct (isArray v); [apply tame_includes | exact I].
  - destruct (negb (isArray v)); [exact I|].
    apply tame_bind; [apply tame_includes | intros; exact I].
  - destruct (isArray criterion); [apply tame_includes | exact I].
  - destruct (negb (isArray criterion)); [exact I|].
    apply tame_bind; [apply tame_includes | intros; exact I].
  - destruct v; try exact I. apply tame_some. intros; apply tame_includes.
  - destruct v; try exact I.
    apply tame_bind; [|intros; exact I].
    apply tame_some. intros; apply tame_includes.
  - destruct (RegExp_new criterion); exact I.
  - destruct (RegExp_new criterion); exact I.
Qed.

(** A constraint check returns, or throws a TypeError or a SyntaxError. *)
Lemma tame_checkConstraint (c criteria : value) :
  tame (_checkConstraint c criteria).
Proof.
  unfold _checkConstraint.
  apply tame_bind; [apply tame_getProp|]. intros field.
  apply tame_bind.
  { unfold resolveField. apply tame_bind; [apply tame_includes|].
    intros [|]; [destruct field; exact I | apply tame_getProp]. }
  intros criterion.
  destruct (strict_equals VUndefined criterion); [exact I|].
  apply tame_bind; [apply tame_getProp|]. intros operator.
  apply tame_bind; [apply tame_getProp|]. intros v.
  apply tame_applyOperator.
Qed.

(** What a valid answer of the loop of [_validateCondition] says of each
    node: resolved, and either a nested condition that was accepted or a
    constraint. *)
Lemma validateNodes_valid_nodes (call : value -> outcome ValidationResult)
    (condition : value) (depth : nat) (nodes : list value) :
  forall acc r,
    validateNodes rules call condition depth nodes acc = Ok r ->
    isValid r = true ->
    Forall (fun node => exists node',
                resolveNode rules node = Ok node'
                /\ ((isCondition node' = true
                     /\ exists subResult,
                          call node' = Ok subResult
                          /\ isValid subResult = true)
                    \/ (isCondition node' = false
                        /\ isConstraint node' = true
                        /\ isValid (_validateConstraint node') = true)))
      nodes.
Proof.
  induction nodes as [|node nodes IH]; intros acc r Hrun Hvalid; [constructor|].
  cbn [validateNodes] in Hrun.
  destruct (resolveNode rules node) as [node'| |] eqn:Hres; try discriminate.
  cbn [bind] in Hrun.
  destruct (isCondition node') eqn:Hcond.
  - destruct (call node') as [sub| |] eqn:Hcall; try discriminate.
    cbn [bind] in Hrun. rewrite andb_false_r in Hrun.
    destruct (Nat.ltb 0 depth && has_key "result" condition).
    { injection Hrun as <-. discriminate. }
    destruct (isValid (merge acc sub)) eqn:Hmerge; cbn [negb] in Hrun.
    2: { injection Hrun as <-. congruence. }
    constructor; [|exact (IH _ _ Hrun Hvalid)].
    exists node'. split; [exact Hres|]. left. split; [exact Hcond|].
    exists sub. split; [exact Hcall|].
    cbn in Hmerge. now apply andb_true_iff in Hmerge as [_ ?].
  - destruct (isConstraint node') eqn:Hcons; cbn [bind negb andb] in Hrun.
    2: { injection Hrun as <-. discriminate. }
    destruct (Nat.ltb 0 depth && has_key "result" condition).
    { injection Hrun as <-. discriminate. }
    destruct (isValid (merge acc (_validateConstraint node'))) eqn:Hmerge;
      cbn [negb] in Hrun.
    2: { injection Hrun as <-. congruence. }
    constructor; [|exact (IH _ _ Hrun Hvalid)].
    exists node'. split; [exact Hres|]. right.
    split; [exact Hcond | split; [exact Hcons|]].
    cbn in Hmerge. now apply andb_true_iff in Hmerge as [_ ?].
Qed.

Lemma tame_evaluateNodes (call : NodeFn -> value -> outcome bool)
    (type : ConditionType) (nodes : list value) :
  Forall (fun node => exists node' fn,
              resolveNode rules node = Ok node'
              /\ selectFn node' = Some fn
              /\ tame (call fn node')) nodes ->
  forall acc, tame (evaluateNodes rules call type nodes acc).
Proof.
  induction 1 as [|node nodes (node' & fn & Hres & Hsel & Hcall) _ IH];
    intros acc; [exact I|].
  cbn [evaluateNodes]. rewrite Hres. cbn [bind]. rewrite Hsel.
  apply tame_bind; [|intros; apply IH].
  destruct type, acc; cbn [step]; try exact I; try exact Hcall.
  apply tame_bind; [exact Hcall | intros; exact I].
Qed.

(** An accepted condition evaluates within the budget that validated it. *)
Lemma tame_evaluateCondition (fuel : nat) :
  forall condition depth r criteria,
    is_string condition = false ->
    _validateCondition rules fuel condition depth = Ok r ->
    isValid r = true ->
    tame (_evaluateCondition rules fuel condition criteria).
Proof.
  induction fuel as [|fuel IH]; intros condition depth r criteria Hstr Hrun Hvalid;
    [discriminate|].
  assert (Hself : resolveNode rules condition = Ok condition)
    by (destruct condition; try reflexivity; discriminate).
  destruct (isValid (_isValidCondition condition)) eqn:Hshape.
  2: { cbn [_validateCondition] in Hrun. rewrite Hself in Hrun.
       cbn [bind] in Hrun. rewrite Hshape in Hrun. cbn [negb] in Hrun.
       injection Hrun as <-. congruence. }
  destruct (ValidatorFacts._isValidCondition_true _ Hshape)
    as (_ & _ & type & Htype).
  rewrite (ReferenceFacts._validateCondition_unfold rules _ _ _ _ _
             Hself Hshape Htype) in Hrun.
  rewrite EvaluatorFacts._evaluateCondition_unfold, Htype. cbn [bind].
  rewrite (EvaluatorFacts.conditionType_getProp _ _ _ Htype). cbn [bind].
  destruct (own_get condition (branchKey type)) as [| | | | |nodes|];
    try (injection Hrun as <-; discriminate).
  cbn [iterate bind].
  apply tame_evaluateNodes.
  pose proof (validateNodes_valid_nodes _ _ _ _ _ _ Hrun Hvalid) as Hall.
  eapply Forall_impl; [|exact Hall].
  intros node (node' & Hres & [[Hcond (sub & Hsub & Hok)] | (Hcond & Hcons & _)]).
  - exists node', fn_evaluateCondition.
    split; [exact Hres|]. split; [unfold selectFn; now rewrite Hcond|].
    cbn [callFn]. apply (IH node' (S depth) sub criteria); try assumption.
    destruct node'; try reflexivity. discriminate.
  - exists node', fn_checkConstraint.
    split; [exact Hres|]. split; [unfold selectFn; now rewrite Hcond, Hcons|].
    apply tame_checkConstraint.
Qed.

Lemma tame_evaluateRule (fuel : nat) (conditions : list value) (criteria : value) :
  Forall (fun c => exists r,
              _validateCondition rules fuel c 0 = Ok r /\ isValid r = true)
    conditions ->
  tame (_evaluateRule rules fuel conditions criteria).
Proof.
  induction 1 as [|c conditions (r & Hrun & Hvalid) _ IH]; [exact I|].
  cbn [_evaluateRule]. apply tame_bind.
  - destruct (is_string c) eqn:Hstr.
    + destruct c; try discriminate.
      destruct fuel; [discriminate | exact I].
    + exact (tame_evaluateCondition _ _ _ _ _ Hstr Hrun Hvalid).
  - intros [|]; [|exact IH].
    unfold resultOf. apply tame_bind; [apply tame_getProp|].
    intros []; exact I.
Qed.

Lemma validate_accepts_conditions (fuel : nat) (rule : value)
    (r : ValidationResult) :
  validate rules fuel rule = Ok r ->
  isValid r = true ->
  getProp rule "conditions" = Ok (own_get rule "conditions")
  /\ Forall (fun c => exists sub,
                 _validateCondition rules fuel c 0 = Ok sub
                 /\ isValid sub = true)
       (normalize (own_get rule "conditions")).
Proof.
  unfold validate.
  destruct (isObject rule) eqn:Hobj; cbn [negb].
  2: { intros [= <-]; discriminate. }
  assert (Hget : getProp rule "conditions" = Ok (own_get rule "conditions"))
    by (destruct rule; try discriminate; reflexivity).
  rewrite Hget. cbn [bind].
  destruct (noConditions (normalize (own_get rule "conditions"))).
  { intros [= <-]; discriminate. }
  intros Hrun Hvalid. split; [reflexivity|].
  exact (ValidatorFacts.validateAll_valid rules _ _ _ _ Hrun Hvalid).
Qed.

Lemma tame_evaluate (fuel : nat) (rule criteria : value) :
  getProp rule "conditions" = Ok (own_get rule "conditions") ->
  Forall (fun c => exists sub,
              _validateCondition rules fuel c 0 = Ok sub
              /\ isValid sub = true)
    (normalize (own_get rule "conditions")) ->
  tame (evaluate rules fuel rule criteria).
Proof.
  intros Hget Hall. unfold evaluate. rewrite Hget. cbn [bind]. cbv zeta.
  destruct criteria as [| | | | |records|];
    try (apply tame_bind; [now apply tame_evaluateRule | intros; exact I]).
  apply tame_bind; [|intros; exact I].
  induction records as [|c records IH]; [exact I|].
  cbn [evaluateEach]. apply tame_bind; [now apply tame_evaluateRule|].
  intros b. apply tame_bind; [exact IH | intros; exact I].
Qed.

(** X15.  A rule [validate] accepts within a budget of nested calls is
    evaluated within the same budget, on every criteria: [evaluate] returns,
    or throws a TypeError or a SyntaxError, and never the lookup error of a
    rule reference. *)
Theorem accepted_rule_evaluates (fuel : nat) (rule criteria : value)
    (r : ValidationResult) :
  validate rules fuel rule = Ok r ->
  isValid r = true ->
  tame (evaluate rules fuel rule criteria).
Proof.
  intros Hrun Hvalid.
  destruct (validate_accepts_conditions _ _ _ Hrun Hvalid) as [Hget Hall].
  now apply tame_evaluate.
Qed.


End WithHost.
End SoundnessFacts.

Module TerminationFacts.
Import ObjectDiscovery Rules Evaluator Validator Spec Shape.

Lemma height_In (x : value) (l : list value) :
  In x l -> height x < height (VArr l).
Proof.
  intros Hin. cbn [height]. apply Nat.lt_succ_r.
  assert (H : Forall (fun k => k <= list_max (map height l)) (map height l))
    by (apply list_max_le; apply Nat.le_refl).
  rewrite Forall_forall in H. apply H. now apply in_map.
Qed.

Lemma lookup_In (k : string) (props : list (string * value)) (x : value) :
  lookup k props = Some x -> In (k, x) props.
Proof.
  unfold lookup.
  destruct (find (fun p => String.eqb (fst p) k) props) as [[k' x']|] eqn:Hfind;
    [|discriminate].
  intros [= <-]. apply find_some in Hfind as [Hin Hk].
  apply String.eqb_eq in Hk. cbn in Hk. now subst k'.
Qed.

Lemma height_lookup (k : string) (props : list (string * value)) (x : value) :
  lookup k props = Some x -> height x < height (VObj props).
Proof.
  intros Hin%lookup_In. cbn [height]. apply Nat.lt_succ_r.
  assert (H : Forall (fun n => n <= list_max (map (fun p => height (snd p)) props))
                (map (fun p => height (snd p)) props))
    by (apply list_max_le; apply Nat.le_refl).
  rewrite Forall_forall in H. apply H.
  change (height x) with ((fun p : string * value => height (snd p)) (k, x)).
  now apply in_map.
Qed.

Lemma height_own_get (props : list (string * value)) (k : string) :
  height (own_get (VObj props) k) <= height (VObj props).
Proof.
  cbn [own_get]. destruct (lookup k props) eqn:Hl.
  - apply Nat.lt_le_incl. exact (height_lookup _ _ _ Hl).
  - apply Nat.le_0_l.
Qed.

(** The nodes of a branch of a tree without references. *)
Lemma noReference_branch (props : list (string * value)) (type : ConditionType)
    (nodes : list value) :
  noReference (VObj props) = true ->
  own_get (VObj props) (branchKey type) = VArr nodes ->
  Forall (fun n => is_string n = false
                   /\ noReference n = true
                   /\ S (height n) < height (VObj props)) nodes.
Proof.
  intros Hno Hbranch. cbn [own_get] in Hbranch.
  destruct (lookup (branchKey type) props) as [x|] eqn:Hl; [|discriminate].
  subst x. pose proof (height_lookup _ _ _ Hl) as Hh.
  apply lookup_In in Hl. cbn [noReference] in Hno.
  rewrite forallb_forall in Hno. specialize (Hno _ Hl). cbn beta iota in Hno.
  assert (Hkey : isBranchKey (branchKey type) = true) by (destruct type; reflexivity).
  rewrite Hkey in Hno. rewrite forallb_forall in Hno.
  apply Forall_forall. intros n Hin. specialize (Hno _ Hin).
  apply andb_true_iff in Hno as [Hs Hn]. apply negb_true_iff in Hs.
  split; [exact Hs | split; [exact Hn|]].
  pose proof (height_In _ _ Hin). lia.
Qed.

Lemma noReference_no_string_branch (props : list (string * value))
    (type : ConditionType) (s : string) :
  noReference (VObj props) = true ->
  own_get (VObj props) (branchKey type) <> VStr s.
Proof.
  intros Hno Hbranch. cbn [own_get] in Hbranch.
  destruct (lookup (branchKey type) props) as [x|] eqn:Hl; [|discriminate].
  subst x. apply lookup_In in Hl. cbn [noReference] in Hno.
  rewrite forallb_forall in Hno. specialize (Hno _ Hl). cbn beta iota in Hno.
  assert (Hkey : isBranchKey (branchKey type) = true) by (destruct type; reflexivity).
  rewrite Hkey in Hno. discriminate.
Qed.

Lemma conditionType_object (v : value) (type : ConditionType) :
  conditionType v = Ok (Some type) -> exists props, v = VObj props.
Proof. destruct v; try discriminate. intros _. eexists; reflexivity. Qed.

Lemma resolveNode_not_string (rules : list StoredRule) (v : value) :
  is_string v = false -> resolveNode rules v = Ok v.
Proof. destruct v; try reflexivity. discriminate. Qed.

(** The top-level conditions of a rule are no higher than the rule. *)
Lemma height_top_level (rule c : value) :
  In c (normalize (own_get rule "conditions")) -> height c <= height rule.
Proof.
  intros Hin.
  assert (Hcs : height (own_get rule "conditions") <= height rule).
  { destruct rule; try (cbn; apply Nat.le_0_l). apply height_own_get. }
  destruct (own_get rule "conditions") as [| | | | |l|] eqn:Hc;
    cbn [normalize] in Hin;
    try (destruct Hin as [<- | []]; exact Hcs).
  pose proof (height_In _ _ Hin). lia.
Qed.

Section WithHost.
Context {host : Host}.
Variable rules : list StoredRule.

Lemma validateNodes_returns (call : value -> outcome ValidationResult)
    (condition : value) (depth : nat) (nodes : list value) :
  Forall (fun n => is_string n = false /\ exists r, call n = Ok r) nodes ->
  forall acc, exists r,
    validateNodes rules call condition depth nodes acc = Ok r.
Proof.
  induction 1 as [|node nodes [Hstr [sub Hsub]] _ IH]; intros acc;
    [eexists; reflexivity|].
  cbn [validateNodes]. rewrite (resolveNode_not_string _ _ Hstr). cbn [bind].
  rewrite Hsub.
  destruct (isCondition node); cbn [bind];
    [|destruct (isConstraint node); cbn [bind]];
    repeat match goal with
           | |- exists r, (if ?b then _ else _) = Ok r => destruct b
           end;
    try (eexists; reflexivity); apply IH.
Qed.

Lemma validateCondition_returns (fuel : nat) :
  forall v depth,
    is_string v = false ->
    noReference v = true ->
    height v < fuel ->
    exists r, _validateCondition rules fuel v depth = Ok r.
Proof.
  induction fuel as [|fuel IH]; intros v depth Hstr Hno Hh; [lia|].
  cbn [_validateCondition]. rewrite (resolveNode_not_string _ _ Hstr).
  cbn [bind].
  destruct (isValid (_isValidCondition v)) eqn:Hshape; cbn [negb];
    [|eexists; reflexivity].
  destruct (ValidatorFacts._isValidCondition_true _ Hshape)
    as (_ & _ & type & Htype).
  rewrite Htype. cbn [bind].
  rewrite (EvaluatorFacts.conditionType_getProp _ _ _ Htype). cbn [bind].
  destruct (conditionType_object _ _ Htype) as [props ->].
  destruct (own_get (VObj props) (branchKey type)) as [| | | | |nodes|] eqn:Hb;
    try (eexists; reflexivity).
  apply validateNodes_returns.
  pose proof (noReference_branch _ _ _ Hno Hb) as Hnodes.
  eapply Forall_impl; [|exact Hnodes].
  intros n (Hs & Hn & Hhn). split; [exact Hs|].
  apply IH; [exact Hs | exact Hn | lia].
Qed.

(** X17.  On a rule without rule references [validate] is total: with a
    budget of nested calls above the nesting of the rule it returns a
    validation result, and never throws. *)
Theorem validate_total_without_reference (fuel : nat) (rule : value) :
  ruleWithoutReference rule = true ->
  height rule < fuel ->
  exists r, validate rules fuel rule = Ok r.
Proof.
  intros Hno Hh. unfold validate.
  destruct (isObject rule) eqn:Hobj; cbn [negb]; [|eexists; reflexivity].
  assert (Hget : getProp rule "conditions" = Ok (own_get rule "conditions"))
    by (destruct rule; try discriminate; reflexivity).
  rewrite Hget. cbn [bind].
  destruct (noConditions (normalize (own_get rule "conditions")));
    [eexists; reflexivity|].
  unfold ruleWithoutReference in Hno. rewrite forallb_forall in Hno.
  pose proof (height_top_level rule) as Htop.
  generalize valid as acc.
  induction (normalize (own_get rule "conditions")) as [|c conditions IH];
    intros acc; [eexists; reflexivity|].
  cbn [validateAll].
  pose proof (Hno c (or_introl eq_refl)) as Hc.
  apply andb_true_iff in Hc as [Hs Hn]. apply negb_true_iff in Hs.
  pose proof (Htop c (or_introl eq_refl)) as Hhc.
  destruct (validateCondition_returns fuel c 0 Hs Hn ltac:(lia)) as [sub ->].
  cbn [bind]. apply IH.
  - intros x Hx. apply Hno. now right.
  - intros x Hx. apply Htop. now right.
Qed.

Lemma tame_evaluateNodes_plain (call : NodeFn -> value -> outcome bool)
    (type : ConditionType) (nodes : list value) :
  Forall (fun n => is_string n = false /\ forall fn, tame (call fn n)) nodes ->
  forall acc, tame (evaluateNodes rules call type nodes acc).
Proof.
  induction 1 as [|node nodes [Hstr Hcall] _ IH]; intros acc; [exact I|].
  cbn [evaluateNodes]. rewrite (resolveNode_not_string _ _ Hstr). cbn [bind].
  destruct (selectFn node) as [fn|]; [|exact I].
  apply SoundnessFacts.tame_bind; [|intros; apply IH].
  destruct type, acc; cbn [step]; try exact I; try apply Hcall.
  apply SoundnessFacts.tame_bind; [apply Hcall | intros; exact I].
Qed.

Lemma evaluateCondition_ends (fuel : nat) :
  forall v criteria,
    is_string v = false ->
    noReference v = true ->
    height v < fuel ->
    tame (_evaluateCondition rules fuel v criteria).
Proof.
  induction fuel as [|fuel IH]; intros v criteria Hstr Hno Hh; [lia|].
  rewrite EvaluatorFacts._evaluateCondition_unfold.
  pose proof (SoundnessFacts.tame_conditionType v) as Ht.
  destruct (conditionType v) as [[type|]|e|] eqn:Htype;
    [|exact I|exact Ht|exact Ht].
  cbn [bind].
  rewrite (EvaluatorFacts.conditionType_getProp _ _ _ Htype). cbn [bind].
  destruct (conditionType_object _ _ Htype) as [props ->].
  destruct (own_get (VObj props) (branchKey type)) as [| | | |s|nodes|] eqn:Hb;
    try exact I.
  - now elim (noReference_no_string_branch _ _ _ Hno Hb).
  - cbn [iterate bind]. apply tame_evaluateNodes_plain.
    pose proof (noReference_branch _ _ _ Hno Hb) as Hnodes.
    eapply Forall_impl; [|exact Hnodes].
    intros n (Hs & Hn & Hhn). split; [exact Hs|].
    intros [|]; cbn [callFn].
    + apply IH; [exact Hs | exact Hn | lia].
    + apply SoundnessFacts.tame_checkConstraint.
Qed.

(** X18.  On a rule without rule references [evaluate] ends: with a budget
    of nested calls above the nesting of the rule it returns, or throws a
    TypeError or a SyntaxError, on every criteria. *)
Theorem evaluate_ends_without_reference (fuel : nat) (rule criteria : value) :
  ruleWithoutReference rule = true ->
  height rule < fuel ->
  tame (evaluate rules fuel rule criteria).
Proof.
  intros Hno Hh. unfold evaluate.
  pose proof (SoundnessFacts.tame_getProp rule "conditions") as Ht.
  destruct (getProp rule "conditions") as [cs|e|] eqn:Hget;
    [|exact Ht|exact Ht].
  assert (Hcs : cs = own_get rule "conditions")
    by (destruct rule; try discriminate; now injection Hget as <-).
  subst cs. cbn [bind]. cbv zeta.
  unfold ruleWithoutReference in Hno. rewrite forallb_forall in Hno.
  pose proof (height_top_level rule) as Htop.
  assert (Hrule : forall c, tame (_evaluateRule rules fuel
                    (normalize (own_get rule "conditions")) c)).
  { intros c.
    induction (normalize (own_get rule "conditions")) as [|x conditions IH];
      [exact I|].
    cbn [_evaluateRule].
    pose proof (Hno x (or_introl eq_refl)) as Hx.
    apply andb_true_iff in Hx as [Hs Hn]. apply negb_true_iff in Hs.
    pose proof (Htop x (or_introl eq_refl)) as Hhx.
    apply SoundnessFacts.tame_bind.
    - apply evaluateCondition_ends; [exact Hs | exact Hn | lia].
    - intros [|].
      + unfold resultOf.
        apply SoundnessFacts.tame_bind; [apply SoundnessFacts.tame_getProp|].
        intros []; exact I.
      + apply IH; intros y Hy; [apply Hno | apply Htop]; now right. }
  destruct criteria as [| | | | |records|];
    try (apply SoundnessFacts.tame_bind; [apply Hrule | intros; exact I]).
  apply SoundnessFacts.tame_bind; [|intros; exact I].
  induction records as [|c records IH]; [exact I|].
  cbn [evaluateEach]. apply SoundnessFacts.tame_bind; [apply Hrule|].
  intros b. apply SoundnessFacts.tame_bind; [exact IH | intros; exact I].
Qed.

(** X19.  A stored rule whose first node is a reference to itself has no
    end: validating or evaluating a rule with its conditions does not
    finish within any budget of nested calls. *)
Theorem self_reference_never_ends (id : string) (stored : StoredRule)
    (c : value) (type : ConditionType) (rest : list value) (rule : value) :
  findRule rules id = Some stored ->
  parsed_conditions stored = Some c ->
  isValid (_isValidCondition c) = true ->
  conditionType c = Ok (Some type) ->
  own_get c (branchKey type) = VArr (VStr id :: rest) ->
  isObject rule = true ->
  own_get rule "conditions" = c ->
  forall fuel,
    validate rules fuel rule = OutOfFuel
    /\ forall criteria,
         isArray criteria = false ->
         evaluate rules fuel rule criteria = OutOfFuel.
Proof.
  intros Hfind Hparsed Hshape Htype Hbranch Hobj Hcs fuel.
  assert (Hid : resolveNode rules (VStr id) = Ok c).
  { cbn [resolveNode]. unfold _getById. now rewrite Hfind, Hparsed. }
  destruct (conditionType_object _ _ Htype) as [props Hc].
  assert (Hself : resolveNode rules c = Ok c) by (rewrite Hc; reflexivity).
  assert (Hcond : isCondition c = true)
    by (destruct (ValidatorFacts._isValidCondition_true _ Hshape) as [H _]; exact H).
  assert (Hv : forall fuel depth, _validateCondition rules fuel c depth = OutOfFuel).
  { clear fuel. induction fuel as [|fuel IH]; intros depth; [reflexivity|].
    rewrite (ReferenceFacts._validateCondition_unfold rules _ _ _ _ _
               Hself Hshape Htype), Hbranch.
    cbn [validateNodes]. rewrite Hid. cbn [bind]. rewrite Hcond, IH. reflexivity. }
  assert (He : forall fuel criteria,
             _evaluateCondition rules fuel c criteria = OutOfFuel).
  { clear fuel. induction fuel as [|fuel IH]; intros criteria; [reflexivity|].
    rewrite EvaluatorFacts._evaluateCondition_unfold, Htype. cbn [bind].
    rewrite (EvaluatorFacts.conditionType_getProp _ _ _ Htype). cbn [bind].
    rewrite Hbranch. cbn [iterate bind evaluateNodes]. rewrite Hid. cbn [bind].
    unfold selectFn. rewrite Hcond.
    assert (Hstep : step (callFn rules fuel criteria) type (seed type)
                      fn_evaluateCondition c = OutOfFuel)
      by (destruct type; cbn [step seed callFn]; now rewrite IH).
    now rewrite Hstep. }
  assert (Hget : getProp rule "conditions" = Ok c)
    by (destruct rule; try discriminate; cbn [getProp]; now rewrite Hcs).
  assert (Hnorm : normalize c = [c]) by (rewrite Hc; reflexivity).
  split.
  - unfold validate. rewrite Hobj, Hget. cbn [negb bind]. rewrite Hnorm.
    assert (Hguard : noConditions [c] = false).
    { rewrite Hc in Hcond |- *.
      destruct props; [discriminate Hcond | reflexivity]. }
    rewrite Hguard. cbn [validateAll]. now rewrite Hv.
  - intros criteria Hcrit. unfold evaluate. rewrite Hget. cbn [bind].
    rewrite Hnorm.
    destruct criteria; try discriminate; cbn [_evaluateRule]; now rewrite He.
Qed.

End WithHost.
End TerminationFacts.

Module BranchFacts.
Import ObjectDiscovery Rules Evaluator Validator Spec Shape.

Lemma fold_none_any (bs : list bool) (acc : bool) :
  fold_left (accumulate none) bs (negb acc)
  = negb (fold_left (accumulate any) bs acc).
Proof.
  revert acc. induction bs as [|b bs IH]; intros acc; [reflexivity|].
  cbn [fold_left accumulate]. rewrite <- negb_orb. apply IH.
Qed.

Section WithHost.
Context {host : Host}.
Variable rules : list StoredRule.

(** X20.  Over the same nodes, each of which evaluates, a [none] condition
    answers the negation of the [any] condition (and not the negation of
    the [all] condition). *)
Theorem none_negates_any (fuel : nat) (cAny cNone criteria : value)
    (nodes : list value) (bs : list bool) :
  conditionType cAny = Ok (Some any) ->
  conditionType cNone = Ok (Some none) ->
  iterate (own_get cAny "any") = Ok nodes ->
  iterate (own_get cNone "none") = Ok nodes ->
  Forall2 (childEvaluates rules fuel criteria) nodes bs ->
  exists b,
    _evaluateCondition rules (S fuel) cAny criteria = Ok b
    /\ _evaluateCondition rules (S fuel) cNone criteria = Ok (negb b).
Proof.
  intros Hany Hnone Hiter Hiter' Hnodes.
  exists (fold_left (accumulate any) bs false). split.
  - rewrite EvaluatorFacts._evaluateCondition_unfold, Hany. cbn [bind].
    rewrite (EvaluatorFacts.conditionType_getProp _ _ _ Hany). cbn [bind branchKey].
    rewrite Hiter. cbn [bind].
    exact (EvaluatorFacts.evaluateNodes_accumulate rules _ _ _ _ _ Hnodes _).
  - rewrite EvaluatorFacts._evaluateCondition_unfold, Hnone. cbn [bind].
    rewrite (EvaluatorFacts.conditionType_getProp _ _ _ Hnone). cbn [bind branchKey].
    rewrite Hiter'. cbn [bind].
    rewrite (EvaluatorFacts.evaluateNodes_accumulate rules _ _ _ _ _ Hnodes).
    f_equal. exact (fold_none_any bs false).
Qed.

(** X21.  A condition with one branch and no node in it is accepted by
    [_validateCondition] at every depth and evaluates, on every criteria,
    to [true] when the branch is [all] or [none] and to [false] when it is
    [any]. *)
Theorem empty_branch_answers (fuel depth : nat) (c criteria : value)
    (type : ConditionType) :
  isValid (_isValidCondition c) = true ->
  conditionType c = Ok (Some type) ->
  own_get c (branchKey type) = VArr [] ->
  _validateCondition rules (S fuel) c depth = Ok valid
  /\ _evaluateCondition rules (S fuel) c criteria
     = Ok (match type with any => false | all | none => true end).
Proof.
  intros Hshape Htype Hbranch. split.
  - rewrite (ReferenceFacts._validateCondition_unfold rules _ _ _ _ _
               (ValidatorFacts.conditionType_resolveNode rules _ _ Htype)
               Hshape Htype), Hbranch.
    cbn [validateNodes]. f_equal.
    revert Hshape. unfold _isValidCondition.
    destruct (negb (isCondition c)); [discriminate|]. cbv zeta.
    destruct ((has_key "any" c && has_key "all" c)
              || (has_key "any" c && has_key "none" c)
              || (has_key "all" c && has_key "none" c));
      [discriminate | reflexivity].
  - rewrite EvaluatorFacts._evaluateCondition_unfold, Htype. cbn [bind].
    rewrite (EvaluatorFacts.conditionType_getProp _ _ _ Htype). cbn [bind].
    rewrite Hbranch. destruct type; reflexivity.
Qed.

Lemma evaluateEach_Forall2 (fuel : nat) (conditions records vs : list value) :
  evaluateEach rules fuel conditions records = Ok vs
  <-> Forall2 (fun c v => exists b,
                   v = VBool b
                   /\ _evaluateRule rules fuel conditions c = Ok b) records vs.
Proof.
  revert vs. induction records as [|c records IH]; intros vs; cbn [evaluateEach].
  - split.
    + intros [= <-]. constructor.
    + intros H. inversion H. reflexivity.
  - split.
    + destruct (_evaluateRule rules fuel conditions c) as [b| |] eqn:Hc;
        try discriminate.
      cbn [bind].
      destruct (evaluateEach rules fuel conditions records) as [bs| |] eqn:Hrest;
        try discriminate.
      cbn [bind]. intros [= <-].
      constructor; [exists b; split; [reflexivity | exact Hc]|].
      now apply IH.
    + intros H. inversion H as [|c' v records' vs' (b & -> & Hb) Hrest]; subst.
      rewrite Hb. cbn [bind].
      apply IH in Hrest. rewrite Hrest. reflexivity.
Qed.

(** X22.  On an array of criteria records, [evaluate] answers the array of
    what it answers on each record, in order: it returns [vs] iff it
    returns the element of [vs] on each record. *)
Theorem evaluate_elementwise (fuel : nat) (rule cs : value)
    (records vs : list value) :
  getProp rule "conditions" = Ok cs ->
  Forall (fun c => isArray c = false) records ->
  (evaluate rules fuel rule (VArr records) = Ok (VArr vs)
   <-> Forall2 (fun c v => evaluate rules fuel rule c = Ok v) records vs).
Proof.
  intros Hcs Hrecords.
  assert (Hone : forall c v,
             isArray c = false ->
             (evaluate rules fuel rule c = Ok v
              <-> exists b, v = VBool b
                            /\ _evaluateRule rules fuel (normalize cs) c = Ok b)).
  { intros c v Hc. unfold evaluate. rewrite Hcs. cbn [bind]. cbv zeta.
    assert (H : match c with
                | VArr records0 =>
                    bs <- evaluateEach rules fuel (normalize cs) records0 ;;
                    Ok (VArr bs)
                | _ => b <- _evaluateRule rules fuel (normalize cs) c ;; Ok (VBool b)
                end
                = (b <- _evaluateRule rules fuel (normalize cs) c ;; Ok (VBool b)))
      by (destruct c; try reflexivity; discriminate).
    rewrite H.
    destruct (_evaluateRule rules fuel (normalize cs) c) as [b| |]; cbn [bind].
    - split; [intros [= <-]; exists b; split; reflexivity
             | intros (b' & -> & [= ->]); reflexivity].
    - split; [discriminate | intros (b' & _ & H'); discriminate H'].
    - split; [discriminate | intros (b' & _ & H'); discriminate H']. }
  transitivity (evaluateEach rules fuel (normalize cs) records = Ok vs).
  - unfold evaluate. rewrite Hcs. cbn [bind]. cbv zeta.
    destruct (evaluateEach rules fuel (normalize cs) records); cbn [bind];
      split; try discriminate; congruence.
  - rewrite evaluateEach_Forall2.
    clear -Hrecords Hone. revert vs.
    induction Hrecords as [|c records Hc _ IH]; intros vs.
    + split; intros H; inversion H; constructor.
    + split; intros H; inversion H; subst; constructor;
        try (now apply IH); now apply (Hone _ _ Hc).
Qed.

(** X23.  [getConditionsByRoleId] answers the parsed conditions of a stored
    rule as [_getById] does; on an identifier of no stored rule, where
    [_getById] throws, it answers the empty object, and [validate] refuses a
    rule with these conditions for having no condition. *)
Theorem getConditionsByRoleId_unknown (id : string) :
  (forall stored,
      findRule rules id = Some stored ->
      Util.getConditionsByRoleId rules id = _getById rules id)
  /\ (findRule rules id = None ->
      Util.getConditionsByRoleId rules id = Ok (VObj [])
      /\ _getById rules id = Throw (Error (lookupMessage id))
      /\ forall fuel rule,
           isObject rule = true ->
           own_get rule "conditions" = VObj [] ->
           validate rules fuel rule = Ok (invalid msg_empty rule)).
Proof.
  unfold Util.getConditionsByRoleId, _getById. split.
  - intros stored ->. reflexivity.
  - intros ->. repeat split.
    intros fuel rule Hobj Hcs. unfold validate. rewrite Hobj. cbn [negb].
    assert (Hget : getProp rule "conditions" = Ok (VObj []))
      by (destruct rule; try discriminate; cbn [getProp]; now rewrite Hcs).
    rewrite Hget. reflexivity.
Qed.

End WithHost.
End BranchFacts.

Module FacadeFacts.
Import ObjectDiscovery Rules Validator Spec Shape.

Section WithHost.
Context {host : Host}.
Variable objects : list RulesEngine.CustomObject.

Lemma resolveRule_not_string (rule rule' : value) :
  RulesEngine.resolveRule objects rule = Ok rule' ->
  RulesEngine.resolveRule objects rule' = Ok rule'.
Proof.
  destruct rule; cbn [RulesEngine.resolveRule]; try (intros [= <-]; reflexivity).
  unfold RulesEngine._getById.
  destruct (find _ objects) as [o|]; [|discriminate].
  destruct (parsed_conditions (RulesEngine.stored o)); [|discriminate].
  intros [= <-]. reflexivity.
Qed.

(** X24.  Once [RulesEngine.validate] has returned on a rule, the facade's
    [evaluate] returns or throws a TypeError or a SyntaxError within the
    same budget: on a rule that is not valid it answers [false], also for
    an array of criteria, and on a valid one what [Evaluator.evaluate]
    answers on the resolved rule. *)
Theorem engine_evaluate_after_validate (fuel : nat) (rule criteria : value)
    (r : ValidationResult) :
  RulesEngine.validate objects fuel rule = Ok r ->
  tame (RulesEngine.evaluate objects fuel rule criteria)
  /\ (isValid r = false ->
      RulesEngine.evaluate objects fuel rule criteria = Ok (VBool false))
  /\ (isValid r = true ->
      exists rule',
        RulesEngine.resolveRule objects rule = Ok rule'
        /\ RulesEngine.evaluate objects fuel rule criteria
           = Evaluator.evaluate (RulesEngine.rulesOf objects) fuel rule' criteria).
Proof.
  unfold RulesEngine.validate, RulesEngine.evaluate.
  destruct (RulesEngine.resolveRule objects rule) as [rule'| |] eqn:Hres;
    try discriminate.
  cbn [bind]. intros Hrun.
  unfold RulesEngine.validate.
  rewrite (resolveRule_not_string _ _ Hres). cbn [bind]. rewrite Hrun.
  cbn [bind].
  destruct (isValid r) eqn:Hvalid; cbn [negb].
  - split.
    { destruct (SoundnessFacts.validate_accepts_conditions _ _ _ _ Hrun Hvalid)
        as [Hget Hall].
      now apply SoundnessFacts.tame_evaluate. }
    split; [discriminate|]. intros _. exists rule'. split; reflexivity.
  - split; [exact I|]. split; [reflexivity | discriminate].
Qed.

(** X25.  In the revision that throws, [evaluate] on a rule [validate]
    returned on throws [Error('Rule is not valid')] when the rule is not
    valid and answers what [Evaluator.evaluate] answers when it is, which
    is a return, a TypeError or a SyntaxError. *)
Theorem engine_evaluate_strict (fuel : nat) (rule criteria : value)
    (r : ValidationResult) :
  RulesEngine.validate_strict objects fuel rule = Ok r ->
  (isValid r = false ->
   RulesEngine.evaluate_strict objects fuel rule criteria
   = Throw (Error RulesEngine.msg_not_valid))
  /\ (isValid r = true ->
      RulesEngine.evaluate_strict objects fuel rule criteria
      = Evaluator.evaluate (RulesEngine.rulesOf objects) fuel rule criteria
      /\ tame (RulesEngine.evaluate_strict objects fuel rule criteria)).
Proof.
  unfold RulesEngine.evaluate_strict. intros Hrun. rewrite Hrun. cbn [bind].
  split; intros Hvalid; rewrite Hvalid; cbn [negb]; [reflexivity|].
  split; [reflexivity|].
  destruct (SoundnessFacts.validate_accepts_conditions _ _ _ _ Hrun Hvalid)
    as [Hget Hall].
  now apply SoundnessFacts.tame_evaluate.
Qed.

(** X26.  Given an identifier of no stored rule, the facade logs and then
    reads the missing rule: [_getById], [validate] and [evaluate] throw a
    TypeError, not the lookup error of the validator and the evaluator. *)
Theorem engine_unknown_identifier (id : string) :
  find (fun o => String.eqb (custom_id (RulesEngine.stored o)) id) objects = None ->
  RulesEngine._getById objects id = Throw TypeError
  /\ (forall fuel, RulesEngine.validate objects fuel (VStr id) = Throw TypeError)
  /\ (forall fuel criteria,
         RulesEngine.evaluate objects fuel (VStr id) criteria = Throw TypeError).
Proof.
  intros Hfind.
  assert (H : RulesEngine._getById objects id = Throw TypeError)
    by (unfold RulesEngine._getById; now rewrite Hfind).
  split; [exact H|]. split; intros;
    unfold RulesEngine.evaluate, RulesEngine.validate;
    cbn [RulesEngine.resolveRule]; now rewrite H.
Qed.

End WithHost.
End FacadeFacts.

Module FirstFailureFacts.
Import ObjectDiscovery Rules Validator Spec Shape.

Lemma valid_coherent (r : ValidationResult) :
  isValid r = true -> coherent r -> r = valid.
Proof.
  destruct r as [v e]. unfold coherent. cbn [isValid error].
  intros -> [H _]. specialize (H eq_refl). subst e. reflexivity.
Qed.

Section WithHost.
Context {host : Host}.
Variable rules : list StoredRule.

(** Through accepted nodes the running result of the loop stays
    [{isValid: true}]. *)
Lemma validateNodes_runs_valid (fuel : nat) (condition : value) (depth : nat)
    (pre : list value) :
  validRuns rules fuel condition depth pre ->
  forall rest,
    validateNodes rules
      (fun node => _validateCondition rules fuel node (S depth))
      condition depth (pre ++ rest) valid
    = validateNodes rules
        (fun node => _validateCondition rules fuel node (S depth))
        condition depth rest valid.
Proof.
  induction 1 as [|node node' pre Hres Hnode Hkey _ IH]; intros rest;
    [reflexivity|].
  cbn [app validateNodes]. rewrite Hres. cbn [bind]. rewrite Hkey.
  destruct (isCondition node') eqn:Hcond.
  - destruct Hnode as (sub & Hsub & Hvalid).
    rewrite Hsub. cbn [bind]. rewrite andb_false_r.
    rewrite (valid_coherent _ Hvalid
               (ResultFacts.coherent_validateCondition rules _ _ _ _ Hsub)).
    exact (IH rest).
  - destruct Hnode as (Hcons & Hvalid).
    rewrite Hcons. cbn [bind negb andb].
    rewrite (valid_coherent _ Hvalid
               (ResultFacts.coherent_validateConstraint node')).
    exact (IH rest).
Qed.

(** X27.  In a branch whose nodes before [node] are accepted,
    [_validateCondition] answers the refusal of [node] itself, message and
    element, whatever nodes follow it: the refusal of the constraint, or of
    the nested condition, that [node] resolves to. *)
Theorem first_refused_node (fuel depth : nat) (c c' : value)
    (type : ConditionType) (pre post : list value) (node node' : value)
    (sub : ValidationResult) :
  resolveNode rules c = Ok c' ->
  isValid (_isValidCondition c') = true ->
  conditionType c' = Ok (Some type) ->
  own_get c' (branchKey type) = VArr (pre ++ node :: post) ->
  validRuns rules fuel c' depth pre ->
  resolveNode rules node = Ok node' ->
  (if isCondition node'
   then _validateCondition rules fuel node' (S depth) = Ok sub
   else isConstraint node' = true /\ _validateConstraint node' = sub) ->
  isValid sub = false ->
  (Nat.ltb 0 depth && has_key "result" c') = false ->
  _validateCondition rules (S fuel) c depth = Ok sub.
Proof.
  intros Hres Hshape Htype Hbranch Hruns Hnode Hsub Hbad Hkey.
  rewrite (ReferenceFacts._validateCondition_unfold rules _ _ _ _ _
             Hres Hshape Htype), Hbranch.
  rewrite (valid_coherent _ Hshape (ResultFacts.coherent_isValidCondition c')).
  rewrite (validateNodes_runs_valid _ _ _ _ Hruns).
  cbn [validateNodes]. rewrite Hnode. cbn [bind]. rewrite Hkey.
  assert (Hmerge : merge valid sub = sub).
  { destruct sub as [v e]. cbn in Hbad. subst v. reflexivity. }
  destruct (isCondition node').
  - rewrite Hsub. cbn [bind]. rewrite andb_false_r, Hmerge, Hbad. reflexivity.
  - destruct Hsub as [Hcons Hsub]. rewrite Hcons, Hsub. cbn [bind negb andb].
    rewrite Hmerge, Hbad. reflexivity.
Qed.

End WithHost.
End FirstFailureFacts.

(** * Closed instances, on the sample host *)

Module Instances.
Import ObjectDiscovery Rules Evaluator Validator Spec Sample.

(** [any] over a constraint that is not satisfied, one that is and one
    that would throw: satisfied, the third is not asked. *)
Lemma evaluateCondition_lazy_fold_witness :
  _evaluateCondition [] 1 anyLazy lazyCriteria = Ok true.
Proof.
  destruct (EvaluatorFacts.evaluateCondition_lazy_fold [] 0 anyLazy lazyCriteria
              any lazyNodes [Ok false; Ok true; Throw TypeError]
              eq_refl eq_refl) as [[_ Hsat] _].
  - repeat constructor; unfold childAnswers; do 2 eexists;
      (split; [reflexivity | split; reflexivity]).
  - apply Hsat. exists [Ok false], [Throw TypeError].
    split; [reflexivity | repeat constructor].
Defined.

(** C1, for every condition, fails.  The first child of [{any: [push
    disabled, 42]}] evaluates satisfied and the condition is not satisfied,
    the node [42] being neither a condition nor a constraint; no child of
    [{none: [42]}] evaluates satisfied and the condition is not satisfied.
    The second child of [{any: [tags contains any, gender equals 2]}]
    evaluates satisfied and the evaluation throws on the first. *)
Lemma satisfied_child_not_enough :
  conditionType anyWithNumber = Ok (Some any)
  /\ own_get anyWithNumber "any"
     = VArr [constraint "pushEnabled" "equals" (VBool false); VNum 42]
  /\ childEvaluates [] 1 pushDisabled
       (constraint "pushEnabled" "equals" (VBool false)) true
  /\ _evaluateCondition [] 2 anyWithNumber pushDisabled = Ok false
  /\ conditionType noneWithNumber = Ok (Some none)
  /\ own_get noneWithNumber "none" = VArr [VNum 42]
  /\ selectFn (VNum 42) = None
  /\ _evaluateCondition [] 2 noneWithNumber pushDisabled = Ok false
  /\ conditionType anyThrowsFirst = Ok (Some any)
  /\ own_get anyThrowsFirst "any"
     = VArr [constraint "tags" "contains any" (VArr [VStr "a"]);
             constraint "gender" "equals" (VNum 2)]
  /\ childEvaluates [] 1 lazyCriteria
       (constraint "gender" "equals" (VNum 2)) true
  /\ _evaluateCondition [] 2 anyThrowsFirst lazyCriteria = Throw TypeError.
Proof.
  repeat split;
    unfold childEvaluates; do 2 eexists;
    (split; [reflexivity | split; reflexivity]).
Qed.


(** [does not exist] on a field the criteria do not have: [false], on a
    host whose [empty(undefined)] is [true]. *)
Lemma checkConstraint_absent_field_witness :
  _checkConstraint absentConstraint (VObj []) = Ok false
  /\ empty VUndefined = true.
Proof.
  split; [|reflexivity].
  exact (EvaluatorFacts.checkConstraint_absent_field absentConstraint (VObj [])
           (VStr "missing") eq_refl eq_refl).
Defined.


(** A reference to [ghost] inside a nested condition, behind a satisfied
    constraint: both calls throw the lookup error.  The reference as the
    top-level condition: [validate] throws the lookup error, [evaluate] a
    TypeError. *)
Lemma unknown_reference_throws_witness :
  validate [] 3 (rule ghostNested) = Throw (Error (lookupMessage "ghost"))
  /\ evaluate [] 3 (rule ghostNested) pushDisabled
     = Throw (Error (lookupMessage "ghost"))
  /\ validate [] 1 ghostRule = Throw (Error (lookupMessage "ghost"))
  /\ evaluate [] 1 ghostRule pushDisabled = Throw TypeError.
Proof.
  destruct (EngineFacts.unknown_reference_throws [] "ghost" eq_refl)
    as [Hv [He Ht]].
  split; [|split; [|split]].
  - apply (Hv 3 (rule ghostNested) ghostNested [ghostNested] [] ghostNested [] []);
      try reflexivity; [apply sequenceOf_single; reflexivity | constructor |].
    apply (validReaches_nested [] "ghost" 2 0 ghostNested ghostNested all
             [constraint "pushEnabled" "equals" (VBool false)] []
             (VObj [("any", VArr [VStr "ghost"])])
             (VObj [("any", VArr [VStr "ghost"])])); try reflexivity.
    + apply (validRuns_cons [] 2 ghostNested 0 _
               (constraint "pushEnabled" "equals" (VBool false)));
        [reflexivity | split; reflexivity | reflexivity | constructor].
    + apply (validReaches_child [] "ghost" 1 1
               (VObj [("any", VArr [VStr "ghost"])])
               (VObj [("any", VArr [VStr "ghost"])]) any [] []);
        try reflexivity. constructor.
  - apply (He 3 (rule ghostNested) pushDisabled ghostNested [ghostNested] []
             ghostNested []);
      try reflexivity; [apply sequenceOf_single; reflexivity | constructor |].
    apply (evalReaches_nested [] pushDisabled "ghost" 2 ghostNested all
             [constraint "pushEnabled" "equals" (VBool false)] []
             (VObj [("any", VArr [VStr "ghost"])])
             (VObj [("any", VArr [VStr "ghost"])])); try reflexivity.
    + apply (evalRuns_cons [] 2 pushDisabled all _
               (constraint "pushEnabled" "equals" (VBool false))
               fn_checkConstraint [] true true true);
        [reflexivity | reflexivity | reflexivity | constructor].
    + apply (evalReaches_child [] pushDisabled "ghost" 1
               (VObj [("any", VArr [VStr "ghost"])]) any [] [] false);
        try reflexivity. constructor.
  - apply (Hv 1 ghostRule (VStr "ghost") [VStr "ghost"] [] (VStr "ghost") [] []);
      try reflexivity;
      [apply sequenceOf_single; reflexivity | constructor
      | apply validReaches_self].
  - apply (Ht 0 ghostRule pushDisabled (VStr "ghost") [VStr "ghost"] [] "ghost" []);
      try reflexivity; [apply sequenceOf_single; reflexivity | constructor].
Defined.

(** C4, for every rule that holds such a reference, fails: each rule here
    holds a reference to [ghost],
    which no stored rule carries; [evaluate] returns [true] on the first
    since an earlier top-level condition is satisfied, and [validate]
    returns a result on the second since the constraint before the
    reference is refused. *)
Lemma unknown_reference_not_reached :
  findRule [] "ghost" = None
  /\ ruleRefersTo "ghost" ghostBehindSatisfied
  /\ evaluate [] 2 ghostBehindSatisfied pushDisabled = Ok (VBool true)
  /\ ruleRefersTo "ghost" ghostBehindFailure
  /\ validate [] 2 ghostBehindFailure
     = Ok (invalid msg_operator (constraint "pushEnabled" "equal to" (VBool false))).
Proof.
  split; [reflexivity|]. split; [|split; [reflexivity|split; [|reflexivity]]].
  - exists ghostBranch. split; [right; left; reflexivity|].
    apply (refersTo_node "ghost" ghostBranch all [VStr "ghost"]);
      [reflexivity | left; reflexivity].
  - eexists. split; [left; reflexivity|].
    eapply (refersTo_node "ghost" _ all); [reflexivity | right; left; reflexivity].
Qed.

(** The push rule is accepted, so its conditions pass the entry guard. *)
Lemma validate_accepts_nonempty_conditions_witness :
  noConditions (normalize (own_get pushRule "conditions")) = false.
Proof.
  exact (proj1 (proj2 (proj2
    (ValidatorFacts.validate_accepts_nonempty_conditions [] 2 pushRule valid
       eq_refl eq_refl)))).
Defined.

(** C5, for the sequences under a branch, fails: [{conditions: {all: []}}]
    is accepted,
    and the sequence under its [all] branch has no element. *)
Lemma empty_branch_accepted :
  validate [] 1 emptyBranchRule = Ok valid
  /\ own_get (own_get emptyBranchRule "conditions") "all" = VArr [].
Proof. split; reflexivity. Qed.


(** The accepted rule [{conditions: {all: [{any: [push disabled]}]}}]: its
    nested condition has a node, and no [result] key. *)
Lemma accepted_rule_nested_result_witness :
  has_key "result" nestedPlain = false.
Proof.
  refine (ValidatorFacts.accepted_rule_nested_result [] 3 nestedPlainRule valid
            (VObj [("all", VArr [nestedPlain])])
            (VObj [("all", VArr [nestedPlain])]) nestedPlain
            eq_refl eq_refl (or_introl eq_refl) eq_refl _ _).
  - apply nestedBelow_child.
    apply (nestedIn_node [] _ _ all [nestedPlain] nestedPlain);
      try reflexivity. left; reflexivity.
  - exists any, (constraint "pushEnabled" "equals" (VBool false)), [].
    split; reflexivity.
Defined.

Lemma evaluate_budget_witness :
  evaluate storedRules 7 (rule noneOfTwo) minor = Ok (VBool true).
Proof.
  refine (FuelFacts.evaluate_budget storedRules 3 7 (rule noneOfTwo) minor _ _).
  - lia.
  - discriminate.
Defined.

Lemma validate_budget_witness :
  validate storedRules 7 (rule noneOfTwo) = Ok valid.
Proof.
  refine (FuelFacts.validate_budget storedRules 3 7 (rule noneOfTwo) _ _).
  - lia.
  - discriminate.
Defined.

(** [{any: [push disabled, 42]}]: the first node is satisfied, the second is
    not a node, and the call returns [false]. *)
Lemma invalid_node_ends_false_witness :
  _evaluateCondition [] 2 anyWithNumber pushDisabled = Ok false.
Proof.
  refine (EngineFacts.invalid_node_ends_false [] 1 anyWithNumber pushDisabled any
            [constraint "pushEnabled" "equals" (VBool false)] [] (VNum 42)
            (VNum 42) true eq_refl eq_refl _ eq_refl eq_refl).
  apply (evalRuns_cons [] 1 pushDisabled any _
           (constraint "pushEnabled" "equals" (VBool false))
           fn_checkConstraint [] false true true);
    [reflexivity | reflexivity | reflexivity | constructor].
Defined.

Lemma unknown_operator_false_witness :
  _checkConstraint (constraint "pushEnabled" "equal to" (VBool false)) pushDisabled
  = Ok false.
Proof.
  exact (EngineFacts.unknown_operator_false
           (constraint "pushEnabled" "equal to" (VBool false)) pushDisabled
           (VStr "pushEnabled") (VBool false) eq_refl eq_refl eq_refl).
Defined.

(** [{conditions: "adults"}]: accepted by [validate], which resolves the
    reference, and a TypeError in [evaluate]. *)
Lemma evaluate_top_level_string_witness :
  evaluate storedRules 3 (rule (VStr "adults")) minor = Throw TypeError
  /\ validate storedRules 3 (rule (VStr "adults")) = Ok valid.
Proof.
  split; [|reflexivity].
  exact (EngineFacts.evaluate_top_level_string storedRules 2
           (rule (VStr "adults")) minor "adults" [] eq_refl eq_refl).
Defined.

(** [not in] answers the negation of [in]: a guest is not among the
    admins. *)
Lemma negated_operator_complements_witness :
  _checkConstraint Cases.roleNotIn Cases.guest = Ok true.
Proof.
  refine (OperatorFacts.negated_operator_complements Cases.roleIn
            Cases.roleNotIn Cases.guest (VStr "role") (VStr "guest")
            in_ not_in eq_refl eq_refl eq_refl eq_refl eq_refl eq_refl eq_refl _).
  discriminate.
Defined.

Lemma contains_any_intersects_witness :
  _checkConstraint Cases.tagsAny Cases.taggedB = Ok true.
Proof.
  exact (proj1 (OperatorFacts.contains_any_intersects Cases.tagsAny
                  Cases.taggedB (VStr "tags") [VStr "x"; VStr "b"]
                  [VStr "a"; VStr "b"] eq_refl eq_refl eq_refl) eq_refl).
Defined.

Lemma checkConstraint_no_criteria_witness :
  _checkConstraint Cases.customerAge VNull = Ok false.
Proof.
  exact (OperatorFacts.checkConstraint_no_criteria Cases.customerAge VNull
           "customer.age" (or_introl eq_refl) eq_refl).
Defined.

Lemma validate_coherent_witness :
  isValid (invalid msg_operator
             (constraint "pushEnabled" "equal to" (VBool false))) = true
  <-> error (invalid msg_operator
               (constraint "pushEnabled" "equal to" (VBool false))) = None.
Proof.
  exact (ResultFacts.validate_coherent [] 2 threeRoots _ eq_refl).
Defined.

Lemma accepted_rule_evaluates_witness :
  Shape.tame (evaluate storedRules 3 (rule noneOfTwo) minor).
Proof.
  exact (SoundnessFacts.accepted_rule_evaluates storedRules 3 (rule noneOfTwo)
           minor valid eq_refl eq_refl).
Defined.


Lemma validate_total_without_reference_witness :
  exists r, validate storedRules 6 signedInRule = Ok r.
Proof.
  refine (TerminationFacts.validate_total_without_reference storedRules 6
            signedInRule eq_refl _).
  cbn. lia.
Defined.

Lemma evaluate_ends_without_reference_witness :
  Shape.tame (evaluate storedRules 6 signedInRule Cases.genderIsTwo).
Proof.
  refine (TerminationFacts.evaluate_ends_without_reference storedRules 6
            signedInRule Cases.genderIsTwo eq_refl _).
  cbn. lia.
Defined.

Lemma self_reference_never_ends_witness :
  validate Cases.loopRules 9 (rule Cases.loopCondition) = OutOfFuel
  /\ evaluate Cases.loopRules 9 (rule Cases.loopCondition) minor = OutOfFuel.
Proof.
  destruct (TerminationFacts.self_reference_never_ends Cases.loopRules "loop"
              {| custom_id := "loop";
                 parsed_conditions := Some Cases.loopCondition |}
              Cases.loopCondition all [] (rule Cases.loopCondition)
              eq_refl eq_refl eq_refl eq_refl eq_refl eq_refl eq_refl 9)
    as [Hv He].
  split; [exact Hv | exact (He minor eq_refl)].
Defined.

Lemma none_negates_any_witness :
  exists b,
    _evaluateCondition [] 1 Cases.anyPair Cases.genderIsTwo = Ok b
    /\ _evaluateCondition [] 1 Cases.nonePair Cases.genderIsTwo = Ok (negb b).
Proof.
  refine (BranchFacts.none_negates_any [] 0 Cases.anyPair Cases.nonePair
            Cases.genderIsTwo Cases.pairNodes [false; true]
            eq_refl eq_refl eq_refl eq_refl _).
  repeat constructor; unfold childEvaluates; do 2 eexists;
    (split; [reflexivity | split; reflexivity]).
Defined.

Lemma empty_branch_answers_witness :
  _validateCondition [] 1 Cases.emptyAll 0 = Ok valid
  /\ _evaluateCondition [] 1 Cases.emptyAll minor = Ok true.
Proof.
  exact (BranchFacts.empty_branch_answers [] 0 0 Cases.emptyAll minor all
           eq_refl eq_refl eq_refl).
Defined.

Lemma evaluate_elementwise_witness :
  evaluate [] 2 pushRule
    (VArr [VObj [("pushEnabled", VBool false)]; VObj [("pushEnabled", VBool true)]])
  = Ok (VArr [VBool true; VBool false]).
Proof.
  refine (proj2 (BranchFacts.evaluate_elementwise [] 2 pushRule _
                   [VObj [("pushEnabled", VBool false)];
                    VObj [("pushEnabled", VBool true)]]
                   [VBool true; VBool false] eq_refl _) _);
    repeat constructor.
Defined.

Lemma engine_evaluate_after_validate_witness :
  RulesEngine.evaluate Cases.adultsObjects 3 (VStr "adults") minor
  = Ok (VBool false).
Proof.
  destruct (proj2 (proj2 (FacadeFacts.engine_evaluate_after_validate
                            Cases.adultsObjects 3 (VStr "adults") minor valid
                            eq_refl)) eq_refl)
    as (rule' & Hres & ->).
  injection Hres as <-. reflexivity.
Defined.

Lemma engine_evaluate_strict_witness :
  RulesEngine.evaluate_strict Cases.adultsObjects 2 threeRoots minor
  = Throw (Error RulesEngine.msg_not_valid).
Proof.
  exact (proj1 (FacadeFacts.engine_evaluate_strict Cases.adultsObjects 2
                  threeRoots minor _ eq_refl) eq_refl).
Defined.

Lemma engine_unknown_identifier_witness :
  RulesEngine.validate Cases.adultsObjects 3 (VStr "ghost") = Throw TypeError.
Proof.
  exact (proj1 (proj2 (FacadeFacts.engine_unknown_identifier
                         Cases.adultsObjects "ghost" eq_refl)) 3).
Defined.

(** The constraint with the unknown operator is refused, and the reference
    to [ghost] behind it is not looked at. *)
Lemma first_refused_node_witness :
  _validateCondition [] 1 (own_get ghostBehindFailure "conditions") 0
  = Ok (invalid msg_operator (constraint "pushEnabled" "equal to" (VBool false))).
Proof.
  refine (FirstFailureFacts.first_refused_node [] 0 0
            (own_get ghostBehindFailure "conditions")
            (own_get ghostBehindFailure "conditions") all []
            [VStr "ghost"] (constraint "pushEnabled" "equal to" (VBool false))
            (constraint "pushEnabled" "equal to" (VBool false))
            (invalid msg_operator
               (constraint "pushEnabled" "equal to" (VBool false)))
            eq_refl eq_refl eq_refl eq_refl _ eq_refl _ eq_refl eq_refl).
  - constructor.
  - split; reflexivity.
Defined.

(** The string forms of numbers: in full up to 21 digits, with the shortest
    digits that name the number, and in exponent form from there. *)
Example number_forms :
  ToString (VNum (-42)) = "-42"
  /\ ToString (VNum (2 ^ 53)) = "9007199254740992"
  /\ ToString (VNum (2 ^ 60)) = "1152921504606847000"
  /\ ToString (VNum (2 ^ 64)) = "18446744073709552000"
  /\ ToString (VNum (10 ^ 21)) = "1e+21"
  /\ ToString (VNum (2 ^ 70)) = "1.1805916207174113e+21"
  /\ ToString (VNum (- 2 ^ 100)) = "-1.2676506002282294e+30".
Proof. vm_compute. repeat split. Qed.

(** The scenarios of the README and of the specification. *)

Example scenario_push_disabled :
  evaluate [] 5 pushRule (VObj [("pushEnabled", VBool false)]) = Ok (VBool true).
Proof. reflexivity. Qed.

Example scenario_push_enabled :
  evaluate [] 5 pushRule (VObj [("pushEnabled", VBool true)]) = Ok (VBool false).
Proof. reflexivity. Qed.

Example scenario_signed_in :
  evaluate [] 5 signedInRule
    (VObj [("authenticated", VBool true); ("gender", VNum 2)]) = Ok (VBool true)
  /\ evaluate [] 5 signedInRule
       (VObj [("authenticated", VBool true); ("gender", VNum 1)]) = Ok (VBool false).
Proof. split; reflexivity. Qed.

Example scenario_contains_any :
  let c := constraint "tags" "contains any" (VArr [VStr "a"; VStr "b"]) in
  _checkConstraint c (VObj [("tags", VArr [VStr "x"; VStr "b"])]) = Ok true
  /\ _checkConstraint c (VObj [("tags", VArr [VStr "x"; VStr "y"])]) = Ok false.
Proof. split; reflexivity. Qed.

Example scenario_two_branches :
  validate [] 5 (rule twoBranches) = Ok (invalid msg_several twoBranches).
Proof. reflexivity. Qed.

Example scenario_nested_path :
  _checkConstraint
    (constraint "customer.profile.gender" "equals" (VNum 1))
    (VObj [("customer", VObj [("profile", VObj [("gender", VNum 1)])])])
  = Ok true.
Proof. reflexivity. Qed.

Example scenario_array_criteria :
  evaluate [] 5 pushRule
    (VArr [VObj [("pushEnabled", VBool false)]; VObj [("pushEnabled", VBool true)]])
  = Ok (VArr [VBool true; VBool false]).
Proof. reflexivity. Qed.

Example scenario_stored_reference :
  validate storedRules 5 (rule noneOfTwo) = Ok valid
  /\ evaluate storedRules 5 (rule noneOfTwo) minor = Ok (VBool true)
  /\ evaluate storedRules 5 (rule noneOfTwo)
       (VObj [("age", VNum 30); ("banned", VBool false)]) = Ok (VBool false).
Proof. repeat split; reflexivity. Qed.

End Instances.
